(** * gemini-tts-server: the WAV encoder, the result caches and the request
      handlers of [index.js], embedded in Rocq.

    The repository ships three near-identical copies of the server.  The
    development follows the complete one (the first program of
    [src/index.js], with the [/vapi-tts] webhook, the kind-prefixed cache
    keys and the two caches); the two smaller copies are subsets of it.

    Conventions of the embedding:
    - a [Buffer] is a [list byte];
    - a JavaScript string is a [string]; its characters stand for the
      code units below 256, which covers every literal of the program;
    - a JavaScript number is an exact rational ([Q]); the program only
      multiplies and divides small integers, where double arithmetic is
      exact;
    - code that may throw returns an [Exc];
    - the process-wide mutable objects (the two [Map]s, the audio
      directory, the clock read by [Date.now()]) are the fields of a
      [World] that is passed explicitly;
    - what the outside world decides (the reply of the Gemini backend and
      its latency, the random UUID, whether the file write fails) is an
      explicit input of each operation. *)

From Stdlib Require Import ZArith QArith Qround List Ascii String Bool Lia.
From Stdlib.Strings Require Import Byte.
From stdpp Require Import gmap strings list fin_maps pretty.

Import ListNotations.
Set Warnings "-register-all".
Local Open Scope string_scope.
Local Open Scope list_scope.
Local Open Scope Z_scope.

(** ** Exceptions *)

(** The values the program can see in a [catch] clause. *)
Inductive Exn : Type :=
  | JsError (message : string)          (* [new Error(message)] thrown by the program *)
  | TypeError                           (* thrown by the runtime: a conversion to primitive failed *)
  | RangeError                          (* thrown by the runtime: ERR_OUT_OF_RANGE of a Buffer write *)
  | Rejected (message : option string)  (* whatever [generateContent] rejected with *)
  | FsError (message : string).         (* thrown by [fs.writeFileSync] *)

Inductive Exc (A : Type) : Type :=
  | Ok (a : A)
  | Throw (e : Exn).
Arguments Ok {A} a.
Arguments Throw {A} e.

Definition bind {A B} (m : Exc A) (k : A -> Exc B) : Exc B :=
  match m with
  | Ok a => k a
  | Throw e => Throw e
  end.

Notation "x <- m ;; k" := (bind m (fun x => k))
  (at level 100, m at next level, right associativity).

(** ** Node's [Buffer] *)

Module Buf.

Definition Buffer := list byte.

(** [Buffer.alloc(n)]: [n] zero bytes. *)
Definition alloc (n : nat) : Buffer := repeat x00 n.

(** The byte with value [z mod 256]. *)
Definition byte_of_Z (z : Z) : byte :=
  match Byte.of_N (Z.to_N (z mod 256)) with
  | Some b => b
  | None => x00
  end.

Definition Z_of_byte (b : byte) : Z := Z.of_N (Byte.to_N b).

(** The [n] low bytes of [z], least significant first. *)
Fixpoint le_bytes (n : nat) (z : Z) : list byte :=
  match n with
  | O => []
  | S n' => byte_of_Z z :: le_bytes n' (Z.shiftr z 8)
  end.

(** Reading back a little-endian unsigned integer. *)
Fixpoint le_value (bs : list byte) : Z :=
  match bs with
  | [] => 0
  | b :: bs' => Z_of_byte b + 256 * le_value bs'
  end.

(** Overwrite [buf] from [offset] with [bs]; the caller has checked that
    it fits. *)
Definition splice (offset : nat) (bs : list byte) (buf : Buffer) : Buffer :=
  firstn offset buf ++ bs ++ skipn (offset + length bs) buf.

(** [buf.write(s, offset)] for a string that fits (the four chunk tags are
    ASCII, one byte per character).  A string running over the end is cut. *)
Definition write (s : string) (offset : nat) (buf : Buffer) : Buffer :=
  let bs := firstn (length buf - offset) (list_byte_of_string s) in
  splice offset bs buf.

(** [value < min || value > max] of Node's [checkInt], on exact numbers. *)
Definition out_of_range (value : Q) (max : Z) : bool :=
  negb (Qle_bool 0 value && Qle_bool value (inject_Z max)).

(** [buf.writeUIntNLE(value, offset)]: Node first checks the value against
    [0 .. 2^(8n) - 1], then the offset against the buffer, and throws
    ERR_OUT_OF_RANGE; a fraction in range is truncated by the byte stores. *)
Definition writeUIntLE (n : nat) (value : Q) (offset : nat) (buf : Buffer) : Exc Buffer :=
  if out_of_range value (2 ^ (8 * Z.of_nat n) - 1) then Throw RangeError
  else if (length buf <? offset + n)%nat then Throw RangeError
  else Ok (splice offset (le_bytes n (Qfloor value)) buf).

Definition writeUInt32LE := writeUIntLE 4.
Definition writeUInt16LE := writeUIntLE 2.

(** [buf.readUIntNLE(offset)], used to decode the header back. *)
Definition readUIntLE (n : nat) (offset : nat) (buf : Buffer) : option Z :=
  if (length buf <? offset + n)%nat then None
  else Some (le_value (firstn n (skipn offset buf))).

Definition readUInt32LE := readUIntLE 4.
Definition readUInt16LE := readUIntLE 2.

(** [buf.subarray(from, to)]. *)
Definition slice (from to : nat) (buf : Buffer) : Buffer :=
  firstn (to - from) (skipn from buf).

End Buf.
Export Buf.

(** ** The WAV encoder (index.js, [pcm16ToWav]) *)

Definition pcm16ToWav (pcmBuffer : Buffer) (sampleRate channels bitsPerSample : Q) : Exc Buffer :=
  let header := alloc 44 in
  let byteRate := (sampleRate * channels * (bitsPerSample / 8))%Q in
  let blockAlign := (channels * (bitsPerSample / 8))%Q in
  let header := write "RIFF" 0 header in
  header <- writeUInt32LE (inject_Z (36 + Z.of_nat (length pcmBuffer))) 4 header ;;
  let header := write "WAVE" 8 header in
  let header := write "fmt " 12 header in
  header <- writeUInt32LE 16 16 header ;;
  header <- writeUInt16LE 1 20 header ;;
  header <- writeUInt16LE channels 22 header ;;
  header <- writeUInt32LE sampleRate 24 header ;;
  header <- writeUInt32LE byteRate 28 header ;;
  header <- writeUInt16LE blockAlign 32 header ;;
  header <- writeUInt16LE bitsPerSample 34 header ;;
  let header := write "data" 36 header in
  header <- writeUInt32LE (inject_Z (Z.of_nat (length pcmBuffer))) 40 header ;;
  Ok (header ++ pcmBuffer).

(** The 44 header bytes expected for the fixed profile (24 kHz, mono,
    16 bits), the two size fields left open. *)
Definition wav_header (riff_size data_size : Z) : Buffer :=
  list_byte_of_string "RIFF" ++ le_bytes 4 riff_size ++
  list_byte_of_string "WAVEfmt " ++
  [x10; x00; x00; x00; x01; x00; x01; x00; xc0; x5d; x00; x00;
   x80; xbb; x00; x00; x02; x00; x10; x00] ++
  list_byte_of_string "data" ++ le_bytes 4 data_size.

(** ** JavaScript values and the conversions the handlers rely on *)

(** A parsed JSON body, plus [undefined] for what is absent.  The property
    list of an object holds each key once. *)
Inductive Value : Type :=
  | Undefined
  | Null
  | Bool (b : bool)
  | Number (n : Q)
  | Str (s : string)
  | Arr (elems : list Value)
  | Obj (props : list (string * Value)).

(** The result of [Number(...)]. *)
Inductive Num : Type :=
  | NaN
  | Infinity (negative : bool)
  | Fin (q : Q).

(** ECMAScript white space and line terminators among the code units
    below 256: TAB, LF, VT, FF, CR, SP and NBSP. *)
Definition is_white_space (c : ascii) : bool :=
  match nat_of_ascii c with
  | 9%nat | 10%nat | 11%nat | 12%nat | 13%nat | 32%nat | 160%nat => true
  | _ => false
  end.

Fixpoint trimStart (s : string) : string :=
  match s with
  | EmptyString => EmptyString
  | String c s' => if is_white_space c then trimStart s' else s
  end.

Fixpoint trimEnd (s : string) : string :=
  match s with
  | EmptyString => EmptyString
  | String c s' =>
      match trimEnd s' with
      | EmptyString => if is_white_space c then EmptyString else String c EmptyString
      | r => String c r
      end
  end.

(** [s.trim()]. *)
Definition trim (s : string) : string := trimEnd (trimStart s).

Fixpoint whitespace_only (s : string) : bool :=
  match s with
  | EmptyString => true
  | String c s' => is_white_space c && whitespace_only s'
  end.

Definition is_empty (s : string) : bool :=
  match s with
  | EmptyString => true
  | String _ _ => false
  end.

(** [ToBoolean]. *)
Definition truthy (v : Value) : bool :=
  match v with
  | Undefined | Null => false
  | Bool b => b
  | Number n => negb (Qeq_bool n 0)
  | Str s => negb (is_empty s)
  | Arr _ | Obj _ => true
  end.

(** [a || b]. *)
Definition or_else (a b : Value) : Value := if truthy a then a else b.

Fixpoint assoc (key : string) (props : list (string * Value)) : option Value :=
  match props with
  | [] => None
  | (k, v) :: props' => if String.eqb k key then Some v else assoc key props'
  end.

(** [v.key] and [v?.key] for the property names the program reads
    (text, voice, model, return, items, message, type, sampleRate): none
    of them is inherited from a prototype, so only an object's own
    properties can answer. *)
Definition get (v : Value) (key : string) : Value :=
  match v with
  | Obj props => match assoc key props with Some x => x | None => Undefined end
  | _ => Undefined
  end.

(** [a === b] when [b] is a string literal. *)
Definition strict_eq_str (a : Value) (b : string) : bool :=
  match a with
  | Str s => String.eqb s b
  | _ => false
  end.

(** Decimal digits only: the fragment of the StringToNumber grammar that
    is read here; [None] for any other string. *)
Fixpoint digits_value (acc : Z) (s : string) : option Z :=
  match s with
  | EmptyString => Some acc
  | String c s' =>
      let d := Z.of_nat (nat_of_ascii c) - 48 in
      if (0 <=? d) && (d <=? 9) then digits_value (10 * acc + d) s' else None
  end.

(** What the embedding takes from the JavaScript runtime as given. *)
Record Runtime : Type := {
  (* Number::toString *)
  NumberToString : Q -> string;
  (* StringToNumber outside plain decimal digits below 2^53 *)
  StringToNumber_rest : string -> Num;
  (* Buffer.from(s, 'base64') *)
  from_base64 : string -> Buffer;
  (* buf.toString('base64') *)
  to_base64 : Buffer -> string;
  (* the message texts of the errors the runtime itself throws *)
  type_error_message : string;
  range_error_message : string
}.

(** [process.env]. *)
Record Env : Type := {
  env_MODEL : option string;
  env_VOICE : option string;
  env_VAPI_TTS_SECRET : option string
}.

(** [process.env.X || fallback]. *)
Definition env_or (x : option string) (fallback : string) : string :=
  match x with
  | Some s => if is_empty s then fallback else s
  | None => fallback
  end.

(** *** The state of the process and the answers of its environment *)

(** A cache entry: [{ wavBuf, createdAt }] in [audioCache] and
    [{ pcm, createdAt }] in [pcmCache]. *)
Record CacheEntry : Type := {
  payload : Buffer;
  createdAt : Z
}.

(** The arguments of one [ai.models.generateContent] call. *)
Record GenRequest : Type := {
  g_model : Value;
  g_voice : Value;
  g_text : string
}.

Record World : Type := {
  clock : Z;                               (* what [Date.now()] returns *)
  audioCache : gmap string CacheEntry;
  pcmCache : gmap string CacheEntry;
  calls : list GenRequest;                 (* the backend calls issued so far *)
  files : gmap string Buffer               (* public/audio, by file name *)
}.

Definition set_clock (t : Z) (w : World) : World :=
  {| clock := t; audioCache := audioCache w; pcmCache := pcmCache w;
     calls := calls w; files := files w |}.

Definition set_audioCache (c : gmap string CacheEntry) (w : World) : World :=
  {| clock := clock w; audioCache := c; pcmCache := pcmCache w;
     calls := calls w; files := files w |}.

Definition set_pcmCache (c : gmap string CacheEntry) (w : World) : World :=
  {| clock := clock w; audioCache := audioCache w; pcmCache := c;
     calls := calls w; files := files w |}.

Definition set_files (f : gmap string Buffer) (w : World) : World :=
  {| clock := clock w; audioCache := audioCache w; pcmCache := pcmCache w;
     calls := calls w; files := f |}.

(** Issuing a backend call. *)
Definition send (g : GenRequest) (w : World) : World :=
  {| clock := clock w; audioCache := audioCache w; pcmCache := pcmCache w;
     calls := calls w ++ [g]; files := files w |}.

(** How an awaited [generateContent] ends: it rejects, or it resolves and
    [response?.candidates?.[0]?.content?.parts?.[0]?.inlineData?.data] is
    a string or [undefined]. *)
Inductive Outcome : Type :=
  | Rejects (message : option string)
  | Responds (data : option string).

(** The backend's answer to one call and the milliseconds it took. *)
Record Reply : Type := {
  outcome : Outcome;
  latency : Z
}.

(** Everything the environment decides for one synthesis. *)
Record IO : Type := {
  reply : Reply;
  uuid : string;                 (* crypto.randomUUID() *)
  write_error : option string    (* Some m: fs.writeFileSync throws with message m *)
}.

Record Request : Type := {
  body : Value;                          (* req.body; Undefined when absent *)
  protocol : string;                     (* req.protocol *)
  host : option string;                  (* req.get('host') *)
  x_forwarded_proto : option string;
  x_forwarded_host : option string;
  x_vapi_signature : option string
}.

Inductive Payload : Type :=
  | Json (v : Value)
  | Bytes (b : Buffer).

Record Response : Type := {
  status : Z;
  headers : list (string * string);      (* the headers set by res.setHeader *)
  content : Payload
}.

(** [res.status(code).json(v)]. *)
Definition json (code : Z) (v : Value) : Response :=
  {| status := code; headers := []; content := Json v |}.

(** The same request with another x-vapi-signature header. *)
Definition with_signature (token : option string) (req : Request) : Request :=
  {| body := body req; protocol := protocol req; host := host req;
     x_forwarded_proto := x_forwarded_proto req;
     x_forwarded_host := x_forwarded_host req;
     x_vapi_signature := token |}.

Definition dquote : string := String (ascii_of_nat 34) EmptyString.

Definition CACHE_TTL_MS : Z := 10 * 60 * 1000.

(** [hit && (now - hit.createdAt) < CACHE_TTL_MS], giving the buffer
    that is then returned. *)
Definition fresh (cache : gmap string CacheEntry) (key : string) (now : Z) : option Buffer :=
  match cache !! key with
  | Some hit => if now - createdAt hit <? CACHE_TTL_MS then Some (payload hit) else None
  | None => None
  end.

(** [a || b] on the results of [req.get]. *)
Definition header_or (a b : option string) : option string :=
  match a with
  | Some s => if is_empty s then b else a
  | None => b
  end.

(** A template literal slot holding a header value. *)
Definition show (a : option string) : string :=
  match a with
  | Some s => s
  | None => "undefined"
  end.

Definition getPublicOrigin (req : Request) : string :=
  let proto := header_or (x_forwarded_proto req) (Some (protocol req)) in
  let host := header_or (x_forwarded_host req) (host req) in
  show proto +:+ "://" +:+ show host.

(** [fs.writeFileSync(path.join(PUBLIC_AUDIO_DIR, filename), data)]. *)
Definition writeFileSync (filename : string) (data : Buffer) (err : option string)
    (w : World) : Exc unit * World :=
  match err with
  | Some m => (Throw (FsError m), w)
  | None => (Ok tt, set_files (<[filename := data]> (files w)) w)
  end.

(** The state of an [async] synthesis at its first suspension: it has
    settled without awaiting, or it awaits the backend. *)
Inductive Started : Type :=
  | Settled (r : Exc Buffer)
  | Awaiting (key : string) (now : Z).

(** ** A concrete runtime and concrete requests, for the examples *)

Module Demo.

Definition b64_digit (c : ascii) : option Z :=
  let n := Z.of_nat (nat_of_ascii c) in
  if (65 <=? n) && (n <=? 90) then Some (n - 65)
  else if (97 <=? n) && (n <=? 122) then Some (n - 71)
  else if (48 <=? n) && (n <=? 57) then Some (n + 4)
  else if n =? 43 then Some 62
  else if n =? 47 then Some 63
  else None.

(** The sextets of a base64 text, up to its padding; other characters
    are skipped. *)
Fixpoint b64_sextets (s : string) : list Z :=
  match s with
  | EmptyString => []
  | String c s' =>
      match b64_digit c with
      | Some v => v :: b64_sextets s'
      | None => if (nat_of_ascii c =? 61)%nat then [] else b64_sextets s'
      end
  end.

Fixpoint b64_bytes (l : list Z) : Buffer :=
  match l with
  | a :: b :: c :: d :: l' =>
      byte_of_Z (a * 4 + b / 16) :: byte_of_Z (b * 16 + c / 4) ::
      byte_of_Z (c * 64 + d) :: b64_bytes l'
  | [a; b; c] => [byte_of_Z (a * 4 + b / 16); byte_of_Z (b * 16 + c / 4)]
  | [a; b] => [byte_of_Z (a * 4 + b / 16)]
  | _ => []
  end.

Definition b64_decode (s : string) : Buffer := b64_bytes (b64_sextets s).

Definition b64_char (v : Z) : ascii :=
  ascii_of_nat (Z.to_nat
    (if v <? 26 then v + 65
     else if v <? 52 then v + 71
     else if v <? 62 then v - 4
     else if v =? 62 then 43 else 47)).

Fixpoint b64_encode (l : Buffer) : string :=
  match l with
  | x :: y :: z :: l' =>
      let n := Z_of_byte x * 65536 + Z_of_byte y * 256 + Z_of_byte z in
      String (b64_char (n / 262144)) (String (b64_char (n / 4096 mod 64))
        (String (b64_char (n / 64 mod 64)) (String (b64_char (n mod 64))
          (b64_encode l'))))
  | [x; y] =>
      let n := Z_of_byte x * 65536 + Z_of_byte y * 256 in
      String (b64_char (n / 262144)) (String (b64_char (n / 4096 mod 64))
        (String (b64_char (n / 64 mod 64)) "="))
  | [x] =>
      let n := Z_of_byte x * 65536 in
      String (b64_char (n / 262144)) (String (b64_char (n / 4096 mod 64)) "==")
  | [] => EmptyString
  end.

(** Integers print in decimal; nothing in the examples prints a fraction
    or parses anything but digits. *)
Definition rt : Runtime := {|
  NumberToString := fun q => pretty (Qfloor q);
  StringToNumber_rest := fun _ => NaN;
  from_base64 := b64_decode;
  to_base64 := b64_encode;
  type_error_message := "Cannot convert object to primitive value";
  range_error_message := "The value is out of range"
|}.

(** No variable set: the defaults, and no webhook secret. *)
Definition env : Env :=
  {| env_MODEL := None; env_VOICE := None; env_VAPI_TTS_SECRET := None |}.

(** VAPI_TTS_SECRET=abc. *)
Definition env_abc : Env :=
  {| env_MODEL := None; env_VOICE := None; env_VAPI_TTS_SECRET := Some "abc" |}.

(** A process that has just started, at clock 1000. *)
Definition w0 : World :=
  {| clock := 1000; audioCache := ∅; pcmCache := ∅; calls := []; files := ∅ |}.

Definition zeros4 : Buffer := [x00; x00; x00; x00].

(** The 48 bytes of the WAV file of [zeros4]. *)
Definition wav48 : Buffer := wav_header 40 4 ++ zeros4.

(** The backend answers base64 of four zero bytes after three seconds. *)
Definition reply_zeros : Reply :=
  {| outcome := Responds (Some "AAAAAA=="); latency := 3000 |}.

Definition reply_fails : Reply :=
  {| outcome := Rejects (Some "quota exceeded"); latency := 500 |}.

Definition io_zeros : IO :=
  {| reply := reply_zeros; uuid := "id-1"; write_error := None |}.

Definition io_fails : IO :=
  {| reply := reply_fails; uuid := "id-2"; write_error := None |}.

Definition post (b : Value) (signature : option string) : Request :=
  {| body := b; protocol := "http"; host := Some "localhost:3000";
     x_forwarded_proto := None; x_forwarded_host := None;
     x_vapi_signature := signature |}.

Definition hello : Value :=
  Obj [("text", Str "Hello"); ("voice", Str "Kore"); ("model", Str "m1")].

Definition hello_padded : Value :=
  Obj [("text", Str " Hello "); ("voice", Str "Kore"); ("model", Str "m1")].

Definition hello_key : string := "wav::m1::Kore::Hello".

(** The world a first successful synthesis of [hello] leaves. *)
Definition w1 : World :=
  {| clock := 4000;
     audioCache := {[ hello_key := {| payload := wav48; createdAt := 1000 |} ]};
     pcmCache := ∅;
     calls := [{| g_model := Str "m1"; g_voice := Str "Kore"; g_text := "Hello" |}];
     files := ∅ |}.

(** A PCM buffer one byte too long for the RIFF size field. *)
Definition pcm_too_long : Buffer := repeat x00 (Z.to_nat (2 ^ 32 - 36)).

Definition voice_request (fields : list (string * Value)) : Value :=
  Obj [("message", Obj (("type", Str "voice-request") :: ("text", Str "Hello") :: fields))].

(** Three items for /batch-url; the backend fails on the second. *)
Definition batch3 : Request :=
  post (Obj [("items", Arr [hello; hello_padded; hello])]) None.

Definition batch3_ios (i : nat) : IO :=
  match i with
  | 1%nat => io_fails
  | _ => io_zeros
  end.

Definition batch1 : Request := post (Obj [("items", Arr [hello])]) None.

(** What /batch-url answers for [hello], and what /tts-url does. *)
Definition batch1_result : Value :=
  Obj [("text", Str "Hello"); ("url", Str "http://localhost:3000/audio/id-1.wav");
       ("model", Str "m1"); ("voice", Str "Kore");
       ("sampleRate", Number 24000); ("channels", Number 1)].

Definition single_result : Value :=
  Obj [("url", Str "http://localhost:3000/audio/id-1.wav");
       ("sampleRate", Number 24000); ("channels", Number 1);
       ("model", Str "m1"); ("voice", Str "Kore")].

(** A request whose [text] is [null]. *)
Definition null_text : Value := Obj [("text", Null); ("voice", Str "Kore")].

(** The world after the backend rejected the synthesis of [hello]. *)
Definition w_failed : World :=
  {| clock := 1500; audioCache := ∅; pcmCache := ∅;
     calls := [{| g_model := Str "m1"; g_voice := Str "Kore"; g_text := "Hello" |}];
     files := ∅ |}.

(** The WAV file of [pcm] at 44.1 kHz, stereo, 16 bits. *)
Definition wav_44100_stereo (pcm : Buffer) : Buffer :=
  list_byte_of_string "RIFF" ++ le_bytes 4 (36 + Z.of_nat (length pcm)) ++
  list_byte_of_string "WAVEfmt " ++
  [x10; x00; x00; x00; x01; x00; x02; x00; x44; xac; x00; x00;
   x10; xb1; x02; x00; x04; x00; x10; x00] ++
  list_byte_of_string "data" ++ le_bytes 4 (Z.of_nat (length pcm)) ++ pcm.

(** The world after [hello] was synthesized for model "m1::x". *)
Definition w_collision : World :=
  {| clock := 4000;
     audioCache := {[ "wav::m1::x::Kore::Hello" :=
                        {| payload := wav48; createdAt := 1000 |} ]};
     pcmCache := ∅;
     calls := [{| g_model := Str "m1::x"; g_voice := Str "Kore"; g_text := "Hello" |}];
     files := ∅ |}.

End Demo.

Section Server.

Variable rt : Runtime.
Variable env : Env.

Definition StringToNumber (s : string) : Num :=
  match s with
  | EmptyString => StringToNumber_rest rt s
  | _ =>
      match digits_value 0 s with
      | Some z => if z <=? 2 ^ 53 then Fin (inject_Z z) else StringToNumber_rest rt s
      | None => StringToNumber_rest rt s
      end
  end.

(** [ToString], which is also what [.toString()] and a template literal
    compute on these values.  An object parsed from JSON answers
    "[object Object]" unless it has an own [toString] property, which is
    not callable: then the conversion throws a TypeError.  An array joins
    its elements with commas, [null] and [undefined] giving the empty
    string. *)
Fixpoint ToString (v : Value) : Exc string :=
  match v with
  | Undefined => Ok "undefined"
  | Null => Ok "null"
  | Bool true => Ok "true"
  | Bool false => Ok "false"
  | Number n => Ok (NumberToString rt n)
  | Str s => Ok s
  | Arr elems =>
      (fix join (l : list Value) : Exc string :=
         match l with
         | [] => Ok EmptyString
         | e :: l' =>
             s <- match e with
                  | Undefined | Null => Ok EmptyString
                  | _ => ToString e
                  end ;;
             match l' with
             | [] => Ok s
             | _ => r <- join l' ;; Ok (s +:+ "," +:+ r)
             end
         end) elems
  | Obj props =>
      match assoc "toString" props with
      | Some _ => Throw TypeError
      | None => Ok "[object Object]"
      end
  end.

(** [Number(v)]. *)
Definition ToNumber (v : Value) : Exc Num :=
  match v with
  | Undefined => Ok NaN
  | Null => Ok (Fin 0)
  | Bool b => Ok (Fin (if b then 1 else 0))
  | Number n => Ok (Fin n)
  | Str s => Ok (StringToNumber s)
  | Arr _ | Obj _ => s <- ToString v ;; Ok (StringToNumber s)
  end.

(** [n !== 24000]. *)
Definition differs_from (n : Num) (k : Q) : bool :=
  match n with
  | Fin q => negb (Qeq_bool q k)
  | _ => true
  end.

(** [err?.message]. *)
Definition message_of (e : Exn) : Value :=
  match e with
  | JsError m => Str m
  | TypeError => Str (type_error_message rt)
  | RangeError => Str (range_error_message rt)
  | Rejected (Some m) => Str m
  | Rejected None => Undefined
  | FsError m => Str m
  end.

(** *** Config *)

Definition DEFAULT_MODEL : string := env_or (env_MODEL env) "gemini-2.5-flash-preview-tts".
Definition DEFAULT_VOICE : string := env_or (env_VOICE env) "Kore".


(** *** The synthesis gateway *)

Definition makeKey (text : string) (voice model : Value) : Exc string :=
  m <- ToString model ;;
  v <- ToString voice ;;
  Ok (m +:+ "::" +:+ v +:+ "::" +:+ text).

(** [`wav::${makeKey({ text, voice, model })}`] and its PCM sibling. *)
Definition wav_key (text : string) (voice model : Value) : Exc string :=
  k <- makeKey text voice model ;; Ok ("wav::" +:+ k).

Definition pcm_key (text : string) (voice model : Value) : Exc string :=
  k <- makeKey text voice model ;; Ok ("pcm::" +:+ k).

Definition no_audio : Exn := JsError "No audio produced by model".

(** [synthesizeToWav] up to its [await]: the key, the clock, the cache
    read and, on a miss, the call. *)
Definition synthesizeToWav_start (text : string) (voice model : Value) (w : World)
    : Started * World :=
  match wav_key text voice model with
  | Throw e => (Settled (Throw e), w)
  | Ok key =>
      let now := clock w in
      match fresh (audioCache w) key now with
      | Some wavBuf => (Settled (Ok wavBuf), w)
      | None =>
          (Awaiting key now,
           send {| g_model := model; g_voice := voice; g_text := text |} w)
      end
  end.

(** [synthesizeToWav] from the moment the awaited call ends. *)
Definition synthesizeToWav_resume (key : string) (now : Z) (o : Outcome) (w : World)
    : Exc Buffer * World :=
  match o with
  | Rejects m => (Throw (Rejected m), w)
  | Responds None => (Throw no_audio, w)
  | Responds (Some base64) =>
      if is_empty base64 then (Throw no_audio, w)
      else
        let pcm := from_base64 rt base64 in
        match pcm16ToWav pcm 24000 1 16 with
        | Throw e => (Throw e, w)
        | Ok wavBuf =>
            (Ok wavBuf,
             set_audioCache
               (<[key := {| payload := wavBuf; createdAt := now |}]> (audioCache w)) w)
        end
  end.

(** One whole call of [synthesizeToWav], the backend answering [r]. *)
Definition synthesizeToWav (text : string) (voice model : Value) (r : Reply) (w : World)
    : Exc Buffer * World :=
  match synthesizeToWav_start text voice model w with
  | (Settled x, w') => (x, w')
  | (Awaiting key now, w') =>
      synthesizeToWav_resume key now (outcome r) (set_clock (now + latency r) w')
  end.

Definition synthesizeToPcm_start (text : string) (voice model : Value) (w : World)
    : Started * World :=
  match pcm_key text voice model with
  | Throw e => (Settled (Throw e), w)
  | Ok key =>
      let now := clock w in
      match fresh (pcmCache w) key now with
      | Some pcm => (Settled (Ok pcm), w)
      | None =>
          (Awaiting key now,
           send {| g_model := model; g_voice := voice; g_text := text |} w)
      end
  end.

Definition synthesizeToPcm_resume (key : string) (now : Z) (o : Outcome) (w : World)
    : Exc Buffer * World :=
  match o with
  | Rejects m => (Throw (Rejected m), w)
  | Responds None => (Throw no_audio, w)
  | Responds (Some base64) =>
      if is_empty base64 then (Throw no_audio, w)
      else
        let pcm := from_base64 rt base64 in
        (Ok pcm,
         set_pcmCache (<[key := {| payload := pcm; createdAt := now |}]> (pcmCache w)) w)
  end.

Definition synthesizeToPcm (text : string) (voice model : Value) (r : Reply) (w : World)
    : Exc Buffer * World :=
  match synthesizeToPcm_start text voice model w with
  | (Settled x, w') => (x, w')
  | (Awaiting key now, w') =>
      synthesizeToPcm_resume key now (outcome r) (set_clock (now + latency r) w')
  end.

(** The two gateways seen as one [synthesize(request, wantWav)], to state
    what holds of both. *)
Definition synthesize (wantWav : bool) : string -> Value -> Value -> Reply -> World -> Exc Buffer * World :=
  if wantWav then synthesizeToWav else synthesizeToPcm.

Definition key_of (wantWav : bool) : string -> Value -> Value -> Exc string :=
  if wantWav then wav_key else pcm_key.

Definition cache_of (wantWav : bool) (w : World) : gmap string CacheEntry :=
  if wantWav then audioCache w else pcmCache w.

Definition set_cache_of (wantWav : bool) (c : gmap string CacheEntry) (w : World) : World :=
  if wantWav then set_audioCache c w else set_pcmCache c w.

Definition other_cache_of (wantWav : bool) (w : World) : gmap string CacheEntry :=
  cache_of (negb wantWav) w.

Definition kind_prefix (wantWav : bool) : string :=
  if wantWav then "wav::" else "pcm::".

(** What is cached and returned for decoded PCM bytes. *)
Definition shaped (wantWav : bool) (pcm : Buffer) : Exc Buffer :=
  if wantWav then pcm16ToWav pcm 24000 1 16 else Ok pcm.

(** *** The request handlers *)

Definition missing_text_string : string :=
  "Missing required " +:+ dquote +:+ "text" +:+ dquote +:+ " string.".

(** The [catch] clause of /tts, /tts-url and /vapi-tts. *)
Definition tts_failed (err : Exn) : Response :=
  json 500 (Obj [("error", Str "TTS failed"); ("detail", message_of err)]).

(** POST /tts. *)
Definition tts (req : Request) (io : IO) (w : World) : Response * World :=
  let b := or_else (body req) (Obj []) in
  let text := get b "text" in
  let voice := get b "voice" in
  let model := get b "model" in
  let ret := get b "return" in
  match ToString (or_else text (Str EmptyString)) with
  | Throw err => (tts_failed err, w)
  | Ok t =>
      if is_empty (trim t) then
        (json 400 (Obj [("error", Str missing_text_string)]), w)
      else
        let useModel := or_else model (Str DEFAULT_MODEL) in
        let useVoice := or_else voice (Str DEFAULT_VOICE) in
        match synthesizeToWav t useVoice useModel (reply io) w with
        | (Throw err, w') => (tts_failed err, w')
        | (Ok wavBuf, w') =>
            if strict_eq_str ret "base64" then
              (json 200 (Obj [("audio", Str (to_base64 rt wavBuf));
                              ("mimeType", Str "audio/wav");
                              ("sampleRate", Number 24000);
                              ("channels", Number 1);
                              ("model", useModel);
                              ("voice", useVoice)]), w')
            else
              ({| status := 200;
                  headers := [("Content-Type", "audio/wav");
                              ("Content-Disposition",
                               "inline; filename=" +:+ dquote +:+ "speech.wav" +:+ dquote)];
                  content := Bytes wavBuf |}, w')
        end
  end.

(** POST /tts-url. *)
Definition tts_url (req : Request) (io : IO) (w : World) : Response * World :=
  let b := or_else (body req) (Obj []) in
  let text := get b "text" in
  let voice := get b "voice" in
  let model := get b "model" in
  match ToString (or_else text (Str EmptyString)) with
  | Throw err => (tts_failed err, w)
  | Ok t =>
      if is_empty (trim t) then
        (json 400 (Obj [("error", Str missing_text_string)]), w)
      else
        let useModel := or_else model (Str DEFAULT_MODEL) in
        let useVoice := or_else voice (Str DEFAULT_VOICE) in
        match synthesizeToWav t useVoice useModel (reply io) w with
        | (Throw err, w') => (tts_failed err, w')
        | (Ok wavBuf, w') =>
            let id := uuid io in
            let filename := id +:+ ".wav" in
            match writeFileSync filename wavBuf (write_error io) w' with
            | (Throw err, w'') => (tts_failed err, w'')
            | (Ok _, w'') =>
                let url := getPublicOrigin req +:+ "/audio/" +:+ filename in
                (json 200 (Obj [("url", Str url);
                                ("sampleRate", Number 24000);
                                ("channels", Number 1);
                                ("model", useModel);
                                ("voice", useVoice)]), w'')
            end
        end
  end.

(** [expected && token !== expected]. *)
Definition secret_mismatch (expected token : option string) : bool :=
  match expected with
  | None => false
  | Some s =>
      if is_empty s then false
      else match token with
           | Some t => negb (String.eqb t s)
           | None => true
           end
  end.

(** POST /vapi-tts. *)
Definition vapi_tts (req : Request) (io : IO) (w : World) : Response * World :=
  let expected := env_VAPI_TTS_SECRET env in
  let token := x_vapi_signature req in
  if secret_mismatch expected token then
    (json 401 (Obj [("error", Str "Unauthorized")]), w)
  else
    let message := get (or_else (body req) (Obj [])) "message" in
    if negb (truthy message) || negb (strict_eq_str (get message "type") "voice-request") then
      (json 400 (Obj [("error",
         Str ("Invalid payload: expected message.type=" +:+ dquote +:+ "voice-request" +:+ dquote))]), w)
    else
      match ToString (or_else (get message "text") (Str EmptyString)) with
      | Throw err => (tts_failed err, w)
      | Ok text =>
          match ToNumber (or_else (get message "sampleRate") (Number 24000)) with
          | Throw err => (tts_failed err, w)
          | Ok sampleRate =>
              if is_empty (trim text) then
                (json 400 (Obj [("error", Str "Missing text")]), w)
              else if differs_from sampleRate 24000 then
                (json 400 (Obj [("error", Str "Only 24000 Hz supported by this TTS server")]), w)
              else
                let useModel := Str DEFAULT_MODEL in
                let useVoice := Str DEFAULT_VOICE in
                match synthesizeToPcm text useVoice useModel (reply io) w with
                | (Throw err, w') => (tts_failed err, w')
                | (Ok pcm, w') =>
                    ({| status := 200;
                        headers := [("Content-Type", "application/octet-stream")];
                        content := Bytes pcm |}, w')
                end
          end
      end.

(** *** POST /batch-url

    [items.map(async (item) => ...)] runs every callback up to its first
    [await] before any of them continues; [Promise.all] then stores each
    callback's value at the index of its item, whenever it completes. *)

(** Where the callback of one item stands when [map] returns. *)
Inductive ItemState : Type :=
  | Done (result : Value)
  | Cached (t : string) (useModel useVoice : Value) (wavBuf : Buffer)
  | Pending (t : string) (useModel useVoice : Value) (key : string) (now : Z).

(** The inner [catch] clause. *)
Definition item_error (e : Exn) : Value :=
  Obj [("error", or_else (message_of e) (Str "synthesis failed"))].

Definition item_start (item : Value) (w : World) : ItemState * World :=
  match ToString (or_else (get item "text") (Str EmptyString)) with
  | Throw e => (Done (item_error e), w)
  | Ok t =>
      if is_empty (trim t) then (Done (Obj [("error", Str "Missing text")]), w)
      else
        let useModel := or_else (get item "model") (Str DEFAULT_MODEL) in
        let useVoice := or_else (get item "voice") (Str DEFAULT_VOICE) in
        match synthesizeToWav_start t useVoice useModel w with
        | (Settled (Throw e), w') => (Done (item_error e), w')
        | (Settled (Ok wavBuf), w') => (Cached t useModel useVoice wavBuf, w')
        | (Awaiting key now, w') => (Pending t useModel useVoice key now, w')
        end
  end.

(** The callback after [await synthesizeToWav(...)] gave [wavBuf]. *)
Definition item_finish (req : Request) (t : string) (useModel useVoice : Value)
    (wavBuf : Buffer) (io : IO) (w : World) : Value * World :=
  let id := uuid io in
  let filename := id +:+ ".wav" in
  match writeFileSync filename wavBuf (write_error io) w with
  | (Throw e, w') => (item_error e, w')
  | (Ok _, w') =>
      let url := getPublicOrigin req +:+ "/audio/" +:+ filename in
      (Obj [("text", Str t); ("url", Str url); ("model", useModel);
            ("voice", useVoice); ("sampleRate", Number 24000);
            ("channels", Number 1)], w')
  end.

(** The rest of the callback of one item, run when what it awaits is
    there. *)
Definition item_settle (req : Request) (st : ItemState) (io : IO) (w : World)
    : Value * World :=
  match st with
  | Done result => (result, w)
  | Cached t useModel useVoice wavBuf => item_finish req t useModel useVoice wavBuf io w
  | Pending t useModel useVoice key now =>
      match synthesizeToWav_resume key now (outcome (reply io))
              (set_clock (now + latency (reply io)) w) with
      | (Throw e, w') => (item_error e, w')
      | (Ok wavBuf, w') => item_finish req t useModel useVoice wavBuf io w'
      end
  end.

(** Phase one: the callbacks start in input order. *)
Fixpoint start_all (items : list Value) (w : World) : list ItemState * World :=
  match items with
  | [] => ([], w)
  | item :: items' =>
      let (st, w1) := item_start item w in
      let (sts, w2) := start_all items' w1 in
      (st :: sts, w2)
  end.

Definition is_pending (st : ItemState) : bool :=
  match st with
  | Pending _ _ _ _ _ => true
  | _ => false
  end.

(** Stable insertion of an index by the latency of its reply. *)
Fixpoint insert_by (cost : nat -> Z) (i : nat) (l : list nat) : list nat :=
  match l with
  | [] => [i]
  | j :: l' => if cost i <? cost j then i :: j :: l' else j :: insert_by cost i l'
  end.

Definition sort_by (cost : nat -> Z) (l : list nat) : list nat :=
  fold_right (insert_by cost) [] l.

Fixpoint indices_where (p : ItemState -> bool) (from : nat) (sts : list ItemState) : list nat :=
  match sts with
  | [] => []
  | st :: sts' =>
      if p st then from :: indices_where p (S from) sts'
      else indices_where p (S from) sts'
  end.

(** The order in which the callbacks continue: those that await nothing
    external first, in input order; then the others as their replies
    arrive. *)
Definition completion_order (ios : nat -> IO) (sts : list ItemState) : list nat :=
  indices_where (fun st => negb (is_pending st)) 0 sts ++
  sort_by (fun i => latency (reply (ios i))) (indices_where is_pending 0 sts).

(** Phase two: each continuation runs on the world the previous ones
    left, and [Promise.all] records its value at the item's index. *)
Fixpoint settle_all (req : Request) (ios : nat -> IO) (sts : list ItemState)
    (order : list nat) (values : list Value) (w : World) : list Value * World :=
  match order with
  | [] => (values, w)
  | i :: order' =>
      match sts !! i with
      | Some st =>
          let (v, w') := item_settle req st (ios i) w in
          settle_all req ios sts order' (<[i := v]> values) w'
      | None => settle_all req ios sts order' values w
      end
  end.

(** [await Promise.all(items.map(...))]; [ios i] is what the environment
    answers to the item at index [i]. *)
Definition batch_results (req : Request) (ios : nat -> IO) (items : list Value) (w : World)
    : list Value * World :=
  let (sts, w1) := start_all items w in
  settle_all req ios sts (completion_order ios sts)
    (replicate (length items) Undefined) w1.

Definition batch_url (req : Request) (ios : nat -> IO) (w : World) : Response * World :=
  let items := get (or_else (body req) (Obj [])) "items" in
  match items with
  | Arr (item :: rest) =>
      let (results, w') := batch_results req ios (item :: rest) w in
      (json 200 (Obj [("results", Arr results)]), w')
  | _ =>
      (json 400 (Obj [("error",
         Str "Provide items: an array of { text, voice?, model? }")]), w)
  end.

(** The result [Promise.all] holds for one item: its callback run from
    the world the request found, with the environment's answers for it. *)
Definition item_result (req : Request) (item : Value) (io : IO) (w : World) : Value :=
  fst (item_settle req (fst (item_start item w)) io (snd (item_start item w))).

(** The property names of an object, in order. *)
Definition keys (v : Value) : list string :=
  match v with
  | Obj props => map fst props
  | _ => []
  end.

(** The backend call the callback of one batch item issues before it
    suspends, if any. *)
Definition item_request (item : Value) (w : World) : list GenRequest :=
  match fst (item_start item w) with
  | Pending t useModel useVoice _ _ =>
      [{| g_model := useModel; g_voice := useVoice; g_text := t |}]
  | _ => []
  end.

(** What the entries of the two caches are expected to be: an audio
    entry sits under a "wav::" key and holds the WAV file of some PCM
    bytes; a PCM entry sits under a "pcm::" key. *)
Definition caches_well_formed (w : World) : Prop :=
  (forall k e, audioCache w !! k = Some e ->
     (exists k', k = "wav::" +:+ k') /\
     (exists pcm, pcm16ToWav pcm 24000 1 16 = Ok (payload e))) /\
  (forall k e, pcmCache w !! k = Some e -> exists k', k = "pcm::" +:+ k').

(** [w'] keeps everything [w] had: every cache entry's key, every file
    name, every logged call. *)
Definition keeps (w w' : World) : Prop :=
  (forall k, is_Some (audioCache w !! k) -> is_Some (audioCache w' !! k)) /\
  (forall k, is_Some (pcmCache w !! k) -> is_Some (pcmCache w' !! k)) /\
  (forall name, is_Some (files w !! name) -> is_Some (files w' !! name)) /\
  (exists l, calls w' = calls w ++ l).

(** One thing that happens to the process: time passes, or one of the
    four POST routes serves a request. *)
Inductive step (w : World) : World -> Prop :=
  | step_clock (t : Z) : step w (set_clock t w)
  | step_tts (req : Request) (io : IO) : step w (snd (tts req io w))
  | step_tts_url (req : Request) (io : IO) : step w (snd (tts_url req io w))
  | step_batch_url (req : Request) (ios : nat -> IO) : step w (snd (batch_url req ios w))
  | step_vapi_tts (req : Request) (io : IO) : step w (snd (vapi_tts req io w)).

(** The worlds the process can be in: it starts with both [Map]s empty,
    no call made, and whatever the audio directory already holds. *)
Inductive reachable : World -> Prop :=
  | reachable_start (t : Z) (dir : gmap string Buffer) :
      reachable {| clock := t; audioCache := ∅; pcmCache := ∅; calls := []; files := dir |}
  | reachable_step (w w' : World) : reachable w -> step w w' -> reachable w'.

(** * Properties *)

(** ** Buffers *)

Lemma bind_Ok {A B} (a : A) (k : A -> Exc B) : bind (Ok a) k = k a.
Proof. reflexivity. Qed.

Lemma Z_of_byte_of_Z (z : Z) : Z_of_byte (byte_of_Z z) = z mod 256.
Proof.
  unfold Z_of_byte, byte_of_Z.
  assert (Hr : 0 <= z mod 256 < 256) by (apply Z.mod_pos_bound; lia).
  destruct (Byte.of_N (Z.to_N (z mod 256))) as [b|] eqn:E.
  - apply Byte.to_of_N in E. rewrite E. lia.
  - apply Byte.of_N_None_iff in E. lia.
Qed.

Lemma length_le_bytes (n : nat) (z : Z) : length (le_bytes n z) = n.
Proof. revert z. induction n as [|n IH]; intros z; simpl; [reflexivity|]. now rewrite IH. Qed.

(** Decoding the little-endian bytes of a value that fits gives it back. *)
Lemma le_value_le_bytes (n : nat) (z : Z) :
  0 <= z < 2 ^ (8 * Z.of_nat n) -> le_value (le_bytes n z) = z.
Proof.
  revert z. induction n as [|n IH]; intros z Hz.
  - simpl in *. lia.
  - cbn [le_bytes le_value]. rewrite Z_of_byte_of_Z, Z.shiftr_div_pow2 by lia.
    replace (8 * Z.of_nat (S n)) with (8 + 8 * Z.of_nat n) in Hz by lia.
    rewrite Z.pow_add_r in Hz by lia.
    change (2 ^ 8) with 256 in *.
    rewrite IH.
    + pose proof (Z.div_mod z 256). lia.
    + split; [apply Z.div_pos; lia|].
      apply Z.div_lt_upper_bound; lia.
Qed.

Lemma out_of_range_Z (z max : Z) :
  out_of_range (inject_Z z) max = negb ((0 <=? z) && (z <=? max)).
Proof.
  unfold out_of_range. f_equal.
  unfold Qle_bool, inject_Z. simpl. now rewrite !Z.mul_1_r.
Qed.

(** A write of an integer in range at an offset in range stores its
    little-endian bytes. *)
Lemma writeUIntLE_Z (n : nat) (z : Z) (offset : nat) (buf : Buffer) :
  0 <= z <= 2 ^ (8 * Z.of_nat n) - 1 ->
  (offset + n <= length buf)%nat ->
  writeUIntLE n (inject_Z z) offset buf = Ok (splice offset (le_bytes n z) buf).
Proof.
  intros Hz Hoff. unfold writeUIntLE.
  rewrite out_of_range_Z.
  replace ((0 <=? z) && (z <=? 2 ^ (8 * Z.of_nat n) - 1)) with true
    by (symmetry; apply andb_true_iff; split; apply Z.leb_le; lia).
  cbn [negb].
  replace (length buf <? offset + n)%nat with false
    by (symmetry; apply Nat.ltb_ge; lia).
  now rewrite Qfloor_Z.
Qed.

(** A write of an integer above the field's maximum throws. *)
Lemma writeUIntLE_overflow (n : nat) (z : Z) (offset : nat) (buf : Buffer) :
  2 ^ (8 * Z.of_nat n) - 1 < z ->
  writeUIntLE n (inject_Z z) offset buf = Throw RangeError.
Proof.
  intros Hz. unfold writeUIntLE. rewrite out_of_range_Z.
  replace (z <=? 2 ^ (8 * Z.of_nat n) - 1) with false
    by (symmetry; apply Z.leb_gt; lia).
  now rewrite andb_false_r.
Qed.

Lemma le_bytes_4_shape (z : Z) : exists a b c d, le_bytes 4 z = [a; b; c; d].
Proof. cbn [le_bytes]. eauto. Qed.

(** ** The WAV encoder *)

Ltac run_write :=
  lazymatch goal with
  | |- bind ?m ?k = _ =>
      let r := eval vm_compute in m in
      change m with r; rewrite bind_Ok; cbv beta
  end.

Lemma pcm16ToWav_default (pcm : Buffer) :
  36 + Z.of_nat (length pcm) < 2 ^ 32 ->
  pcm16ToWav pcm 24000 1 16 =
  Ok (wav_header (36 + Z.of_nat (length pcm)) (Z.of_nat (length pcm)) ++ pcm).
Proof.
  intros Hlen. unfold pcm16ToWav, wav_header, writeUInt32LE, writeUInt16LE.
  cbv zeta.
  rewrite writeUIntLE_Z; [| change (8 * Z.of_nat 4) with 32; lia | vm_compute; lia].
  destruct (le_bytes_4_shape (36 + Z.of_nat (length pcm))) as (a & b & c & d & ->).
  rewrite bind_Ok; cbv beta.
  do 7 run_write.
  rewrite writeUIntLE_Z; [| change (8 * Z.of_nat 4) with 32; lia | vm_compute; lia].
  destruct (le_bytes_4_shape (Z.of_nat (length pcm))) as (e & f & g & h & ->).
  rewrite bind_Ok. reflexivity.
Qed.


Local Arguments le_value : simpl never.

Ltac read_field E :=
  unfold readUInt32LE, readUInt16LE, readUIntLE, slice;
  rewrite ?E;
  repeat match goal with
  | |- context [list_byte_of_string ?s] =>
      let r := eval vm_compute in (list_byte_of_string s) in
      change (list_byte_of_string s) with r
  end;
  simpl;
  rewrite <- ?E.

(** C1 (as amended).  For every PCM buffer whose RIFF size [36 + len]
    fits the 32-bit field, [pcm16ToWav(pcm, 24000, 1, 16)] returns a
    buffer of [44 + len] bytes: the canonical header, field by field,
    followed by the PCM bytes unchanged. *)
Theorem pcm16ToWav_canonical (pcm : Buffer) :
  36 + Z.of_nat (length pcm) < 2 ^ 32 ->
  exists out,
    pcm16ToWav pcm 24000 1 16 = Ok out /\
    length out = (44 + length pcm)%nat /\
    slice 0 4 out = list_byte_of_string "RIFF" /\
    readUInt32LE 4 out = Some (36 + Z.of_nat (length pcm)) /\
    slice 8 12 out = list_byte_of_string "WAVE" /\
    slice 12 16 out = list_byte_of_string "fmt " /\
    readUInt32LE 16 out = Some 16 /\
    readUInt16LE 20 out = Some 1 /\
    readUInt16LE 22 out = Some 1 /\
    readUInt32LE 24 out = Some 24000 /\
    readUInt32LE 28 out = Some 48000 /\
    readUInt16LE 32 out = Some 2 /\
    readUInt16LE 34 out = Some 16 /\
    slice 36 40 out = list_byte_of_string "data" /\
    readUInt32LE 40 out = Some (Z.of_nat (length pcm)) /\
    skipn 44 out = pcm.
Proof.
  intros Hlen. eexists. split; [apply pcm16ToWav_default, Hlen|].
  destruct (le_bytes_4_shape (36 + Z.of_nat (length pcm))) as (a & b & c & d & E1).
  destruct (le_bytes_4_shape (Z.of_nat (length pcm))) as (e & f & g & h & E2).
  unfold wav_header.
  repeat match goal with |- _ /\ _ => split end.
  - rewrite E1, E2. reflexivity.
  - rewrite E1. reflexivity.
  - read_field E1. f_equal. apply (le_value_le_bytes 4). change (8 * Z.of_nat 4) with 32. lia.
  - rewrite E1. reflexivity.
  - rewrite E1. reflexivity.
  - read_field E1. reflexivity.
  - read_field E1. reflexivity.
  - read_field E1. reflexivity.
  - read_field E1. reflexivity.
  - read_field E1. reflexivity.
  - read_field E1. reflexivity.
  - read_field E1. reflexivity.
  - rewrite E1. reflexivity.
  - rewrite E1. read_field E2. f_equal. rewrite firstn_O, <- E2.
    apply (le_value_le_bytes 4). change (8 * Z.of_nat 4) with 32. lia.
  - rewrite E1, E2. reflexivity.
Qed.


(** ** The gateway and its caches *)

Lemma fresh_Some (cache : gmap string CacheEntry) (key : string) (now : Z) (b : Buffer) :
  fresh cache key now = Some b <->
  exists e, cache !! key = Some e /\ now - createdAt e < CACHE_TTL_MS /\ payload e = b.
Proof.
  unfold fresh. split.
  - destruct (cache !! key) as [e|]; [|discriminate].
    destruct (Z.ltb_spec (now - createdAt e) CACHE_TTL_MS); [|discriminate].
    intros [= <-]. eauto.
  - intros (e & -> & Hlt & <-).
    now destruct (Z.ltb_spec (now - createdAt e) CACHE_TTL_MS); [|lia].
Qed.

Lemma fresh_None (cache : gmap string CacheEntry) (key : string) (now : Z) :
  fresh cache key now = None <->
  forall e, cache !! key = Some e -> CACHE_TTL_MS <= now - createdAt e.
Proof.
  unfold fresh. destruct (cache !! key) as [e|].
  - destruct (Z.ltb_spec (now - createdAt e) CACHE_TTL_MS); split; try done.
    + intros H'. specialize (H' e eq_refl). lia.
    + intros _ e' [= <-]. lia.
  - split; [intros _ e' [=]|done].
Qed.

(** Both gateways, one normal form: key, clock, cache read, and on a miss
    the call, the reply and the cache write. *)
Lemma synthesize_unfold (wantWav : bool) (text : string) (voice model : Value)
    (r : Reply) (w : World) :
  synthesize wantWav text voice model r w =
  match key_of wantWav text voice model with
  | Throw e => (Throw e, w)
  | Ok key =>
      match fresh (cache_of wantWav w) key (clock w) with
      | Some b => (Ok b, w)
      | None =>
          let w1 := set_clock (clock w + latency r)
                      (send {| g_model := model; g_voice := voice; g_text := text |} w) in
          match outcome r with
          | Rejects m => (Throw (Rejected m), w1)
          | Responds None => (Throw no_audio, w1)
          | Responds (Some base64) =>
              if is_empty base64 then (Throw no_audio, w1)
              else match shaped wantWav (from_base64 rt base64) with
                   | Throw e => (Throw e, w1)
                   | Ok buf =>
                       (Ok buf,
                        set_cache_of wantWav
                          (<[key := {| payload := buf; createdAt := clock w |}]>
                             (cache_of wantWav w)) w1)
                   end
          end
      end
  end.
Proof.
  destruct wantWav; cbn [synthesize key_of cache_of shaped set_cache_of];
    unfold synthesizeToWav, synthesizeToWav_start, synthesizeToWav_resume,
           synthesizeToPcm, synthesizeToPcm_start, synthesizeToPcm_resume.
  - destruct (wav_key text voice model) as [key|e]; [|reflexivity].
    destruct (fresh (audioCache w) key (clock w)); [reflexivity|].
    cbv zeta. destruct (outcome r) as [m|[base64|]]; reflexivity.
  - destruct (pcm_key text voice model) as [key|e]; [|reflexivity].
    destruct (fresh (pcmCache w) key (clock w)); [reflexivity|].
    cbv zeta. destruct (outcome r) as [m|[base64|]]; try reflexivity.
    all: now destruct (is_empty base64).
Qed.

Lemma key_of_prefix (wantWav : bool) (text : string) (voice model : Value) (key : string) :
  key_of wantWav text voice model = Ok key ->
  exists k, makeKey text voice model = Ok k /\ key = kind_prefix wantWav +:+ k.
Proof.
  destruct wantWav; cbn [key_of kind_prefix]; unfold wav_key, pcm_key;
    destruct (makeKey text voice model) as [k|e]; cbn [bind]; intros [= <-]; eauto.
Qed.

Lemma cache_of_set_same (wantWav : bool) (c : gmap string CacheEntry) (w : World) :
  cache_of wantWav (set_cache_of wantWav c w) = c.
Proof. now destruct wantWav. Qed.

Lemma calls_set_cache_of (wantWav : bool) (c : gmap string CacheEntry) (w : World) :
  calls (set_cache_of wantWav c w) = calls w.
Proof. now destruct wantWav. Qed.

Lemma clock_set_cache_of (wantWav : bool) (c : gmap string CacheEntry) (w : World) :
  clock (set_cache_of wantWav c w) = clock w.
Proof. now destruct wantWav. Qed.

(** What a call that returns a buffer leaves behind: an entry for its key
    that holds the returned buffer, and at most one new backend call. *)
Lemma synthesize_Ok (wantWav : bool) (text : string) (voice model : Value)
    (r : Reply) (w w' : World) (b : Buffer) :
  synthesize wantWav text voice model r w = (Ok b, w') ->
  exists key e,
    key_of wantWav text voice model = Ok key /\
    cache_of wantWav w' !! key = Some e /\ payload e = b /\
    ((w' = w /\ clock w - createdAt e < CACHE_TTL_MS) \/
     (calls w' = calls w ++ [{| g_model := model; g_voice := voice; g_text := text |}] /\
      createdAt e = clock w /\
      clock w' = clock w + latency r /\
      fresh (cache_of wantWav w) key (clock w) = None /\
      exists base64, outcome r = Responds (Some base64) /\
                     shaped wantWav (from_base64 rt base64) = Ok b)).
Proof.
  rewrite synthesize_unfold.
  destruct (key_of wantWav text voice model) as [key|]; [|discriminate].
  destruct (fresh (cache_of wantWav w) key (clock w)) as [b0|] eqn:Hf.
  - intros [= <- <-]. apply fresh_Some in Hf as (e & He & Hlt & Hp).
    exists key, e. eauto 10.
  - cbv zeta. destruct (outcome r) as [m|[base64|]]; try discriminate.
    destruct (is_empty base64); [discriminate|].
    destruct (shaped wantWav (from_base64 rt base64)) as [buf|] eqn:Hs; [|discriminate].
    intros [= <- <-].
    exists key, {| payload := buf; createdAt := clock w |}.
    rewrite cache_of_set_same, lookup_insert_eq, calls_set_cache_of, clock_set_cache_of.
    cbn. repeat split; eauto 10.
Qed.

(** C2.  Two calls of [synthesizeToWav] with the same text, voice and
    model, one after the other: when the first returns a buffer and the
    second reads the clock within the TTL of the entry the first one
    left (or hit), the second returns the very same bytes, leaves the
    world as it is, so issues no backend call, and the two calls
    together issued at most one. *)
Theorem synthesizeToWav_repeat_is_cached (text : string) (voice model : Value)
    (r1 r2 : Reply) (w w1 : World) (b : Buffer) (t2 : Z) :
  synthesizeToWav text voice model r1 w = (Ok b, w1) ->
  (forall key e, wav_key text voice model = Ok key ->
                 audioCache w1 !! key = Some e -> t2 - createdAt e < CACHE_TTL_MS) ->
  synthesizeToWav text voice model r2 (set_clock t2 w1) = (Ok b, set_clock t2 w1) /\
  calls (snd (synthesizeToWav text voice model r2 (set_clock t2 w1))) = calls w1 /\
  (length (calls w1) <= length (calls w) + 1)%nat.
Proof.
  intros H1 Httl.
  apply (synthesize_Ok true) in H1 as (key & e & Hk & He & Hp & Hcase).
  cbn [key_of cache_of] in *.
  assert (H2 : synthesizeToWav text voice model r2 (set_clock t2 w1) = (Ok b, set_clock t2 w1)).
  { change synthesizeToWav with (synthesize true). rewrite synthesize_unfold.
    cbn [key_of cache_of]. rewrite Hk.
    assert (Hf : fresh (audioCache (set_clock t2 w1)) key (clock (set_clock t2 w1)) = Some b).
    { apply fresh_Some. exists e. cbn. eauto. }
    now rewrite Hf. }
  rewrite H2. cbn [snd]. split; [reflexivity|]. split; [reflexivity|].
  destruct Hcase as [[-> _]|(Hc & _)]; [lia|].
  rewrite Hc, length_app. cbn. lia.
Qed.

(** C4.  A read at a time when [now - entry.createdAt] has reached ten
    minutes treats the entry as absent, in either cache: the call issues
    a backend request, answers exactly what it would answer had the
    entry been deleted, and a buffer it returns is built from the fresh
    reply. *)
Theorem stale_entry_is_a_miss (wantWav : bool) (text : string) (voice model : Value)
    (r : Reply) (w : World) (key : string) (e : CacheEntry) :
  key_of wantWav text voice model = Ok key ->
  cache_of wantWav w !! key = Some e ->
  10 * 60 * 1000 <= clock w - createdAt e ->
  fresh (cache_of wantWav w) key (clock w) = None /\
  calls (snd (synthesize wantWav text voice model r w)) =
    calls w ++ [{| g_model := model; g_voice := voice; g_text := text |}] /\
  fst (synthesize wantWav text voice model r w) =
    fst (synthesize wantWav text voice model r
           (set_cache_of wantWav (delete key (cache_of wantWav w)) w)) /\
  (forall b, fst (synthesize wantWav text voice model r w) = Ok b ->
     exists base64, outcome r = Responds (Some base64) /\
                    shaped wantWav (from_base64 rt base64) = Ok b).
Proof.
  intros Hk He Hold.
  assert (Hf : fresh (cache_of wantWav w) key (clock w) = None).
  { apply fresh_None. intros e' He'. rewrite He in He'. injection He' as <-.
    unfold CACHE_TTL_MS. lia. }
  assert (Hf' : fresh (delete key (cache_of wantWav w)) key (clock w) = None).
  { apply fresh_None. intros e'. now rewrite lookup_delete_eq. }
  split; [exact Hf|].
  rewrite !synthesize_unfold, Hk, cache_of_set_same, clock_set_cache_of, Hf, Hf'.
  cbv zeta.
  destruct (outcome r) as [m|[base64|]]; cbn [fst snd].
  1, 3: (split; [reflexivity|]; split; [reflexivity|discriminate]).
  destruct (is_empty base64); cbn [fst snd].
  { split; [reflexivity|]. split; [reflexivity|discriminate]. }
  destruct (shaped wantWav (from_base64 rt base64)) as [buf|] eqn:Hs; cbn [fst snd].
  - split; [now destruct wantWav|]. split; [reflexivity|].
    intros b [= <-]. eauto.
  - split; [reflexivity|]. split; [reflexivity|discriminate].
Qed.


Lemma synthesize_other_cache (wantWav : bool) (text : string) (voice model : Value)
    (r : Reply) (w : World) (c : gmap string CacheEntry) :
  fst (synthesize wantWav text voice model r (set_cache_of (negb wantWav) c w)) =
  fst (synthesize wantWav text voice model r w) /\
  other_cache_of wantWav (snd (synthesize wantWav text voice model r w)) =
  other_cache_of wantWav w.
Proof.
  rewrite !synthesize_unfold.
  replace (cache_of wantWav (set_cache_of (negb wantWav) c w)) with (cache_of wantWav w)
    by now destruct wantWav.
  replace (clock (set_cache_of (negb wantWav) c w)) with (clock w)
    by now destruct wantWav.
  destruct (key_of wantWav text voice model) as [key|]; [|now split].
  destruct (fresh (cache_of wantWav w) key (clock w)); [now split|].
  cbv zeta. destruct (outcome r) as [m|[base64|]];
    [now destruct wantWav| |now destruct wantWav].
  destruct (is_empty base64); [now destruct wantWav|].
  destruct (shaped wantWav (from_base64 rt base64)); now destruct wantWav.
Qed.

(** C5.  Kind isolation.  A buffer returned by the WAV gateway is, after
    the call, the payload stored in [audioCache] under the request's
    key prefixed by "wav::", and it was there before the call whenever
    no backend call was made; the same holds of the PCM gateway,
    [pcmCache] and "pcm::".  Keys of the two kinds never coincide, and
    neither gateway reads or writes the other one's cache. *)
Theorem kind_isolation (wantWav : bool) (text : string) (voice model : Value)
    (r : Reply) (w : World) :
  let out := synthesize wantWav text voice model r w in
  (forall b, fst out = Ok b ->
     exists k e, makeKey text voice model = Ok k /\
       cache_of wantWav (snd out) !! (kind_prefix wantWav +:+ k) = Some e /\
       payload e = b) /\
  (forall b, fst out = Ok b -> calls (snd out) = calls w ->
     exists k e, makeKey text voice model = Ok k /\
       cache_of wantWav w !! (kind_prefix wantWav +:+ k) = Some e /\
       payload e = b) /\
  (forall k1 k2, kind_prefix wantWav +:+ k1 <> kind_prefix (negb wantWav) +:+ k2) /\
  (forall c, fst (synthesize wantWav text voice model r (set_cache_of (negb wantWav) c w)) =
             fst out) /\
  other_cache_of wantWav (snd out) = other_cache_of wantWav w.
Proof.
  intros out. subst out.
  destruct (synthesize wantWav text voice model r w) as [x w'] eqn:Hs. cbn [fst snd].
  repeat match goal with |- _ /\ _ => split end.
  - intros b ->. apply synthesize_Ok in Hs as (key & e & Hk & He & Hp & _).
    apply key_of_prefix in Hk as (k & Hk & ->). eauto.
  - intros b -> Hc. apply synthesize_Ok in Hs as (key & e & Hk & He & Hp & Hcase).
    apply key_of_prefix in Hk as (k & Hk & ->).
    destruct Hcase as [[-> _]|(Hc' & _)]; [eauto|].
    rewrite Hc in Hc'. apply (f_equal length) in Hc'.
    rewrite length_app in Hc'. cbn in Hc'. lia.
  - intros k1 k2. destruct wantWav; cbn; discriminate.
  - intros c. pose proof (synthesize_other_cache wantWav text voice model r w c) as [H1 _].
    now rewrite Hs in H1.
  - pose proof (synthesize_other_cache wantWav text voice model r w ∅) as [_ H2].
    now rewrite Hs in H2.
Qed.

(** C6 (as amended).  A cache insertion stamps the entry with the value
    [Date.now()] had when the call started, before the backend was
    awaited; the insertion itself happens [latency] later.  So the entry
    is served exactly while [now - start < 10 minutes]. *)
Theorem createdAt_is_call_start (wantWav : bool) (text : string) (voice model : Value)
    (r : Reply) (w w' : World) (b : Buffer) :
  synthesize wantWav text voice model r w = (Ok b, w') ->
  calls w' <> calls w ->
  exists key,
    key_of wantWav text voice model = Ok key /\
    cache_of wantWav w' !! key = Some {| payload := b; createdAt := clock w |} /\
    clock w' = clock w + latency r /\
    (forall t, fresh (cache_of wantWav w') key t = Some b <-> t - clock w < 10 * 60 * 1000).
Proof.
  intros Hs Hcalls.
  apply synthesize_Ok in Hs as (key & e & Hk & He & Hp & Hcase).
  destruct Hcase as [[-> _]|(_ & Hc & Hclock & _)]; [done|].
  destruct e as [p c]. cbn in Hp, Hc. subst p c.
  exists key. repeat match goal with |- _ /\ _ => split end; try done.
  intros t. rewrite fresh_Some. split.
  - intros (e & He' & Hlt & _). rewrite He in He'. injection He' as <-. exact Hlt.
  - intros Hlt. eexists. split; [exact He|]. now split.
Qed.


(** ** Validation and cache keys *)

Lemma trimStart_whitespace_only (s : string) :
  whitespace_only s = true -> trimStart s = EmptyString.
Proof.
  induction s as [|c s IH]; cbn; [reflexivity|].
  destruct (is_white_space c); cbn; [exact IH|discriminate].
Qed.

Lemma trim_whitespace_only (s : string) :
  whitespace_only s = true -> trim s = EmptyString.
Proof. intros H. unfold trim. now rewrite trimStart_whitespace_only. Qed.

(** [(text || '').toString()] on a string, empty or not, is that string. *)
Lemma text_of_Str (s : string) : ToString (or_else (Str s) (Str EmptyString)) = Ok s.
Proof. now destruct s. Qed.

Lemma text_of_Undefined : ToString (or_else Undefined (Str EmptyString)) = Ok EmptyString.
Proof. reflexivity. Qed.

Lemma append_inj_r (p s1 s2 : string) : p +:+ s1 = p +:+ s2 -> s1 = s2.
Proof. induction p as [|c p IH]; cbn; [done|]. intros [= H]. auto. Qed.

(** C3 (as amended).  With model and voice equal, two requests get the
    same fingerprint exactly when their texts are equal as they are,
    untrimmed; and /tts hands the text to the gateway as it came, [trim]
    serving the validation only: the handler changes the world as
    [synthesizeToWav] on the untrimmed text does. *)
Theorem fingerprint_uses_untrimmed_text (t1 t2 : string) (voice model : Value)
    (k1 k2 : string) (req : Request) (io : IO) (w : World) :
  wav_key t1 voice model = Ok k1 ->
  wav_key t2 voice model = Ok k2 ->
  get (or_else (body req) (Obj [])) "text" = Str t1 ->
  is_empty (trim t1) = false ->
  (k1 = k2 <-> t1 = t2) /\
  snd (tts req io w) =
  snd (synthesizeToWav t1
         (or_else (get (or_else (body req) (Obj [])) "voice") (Str DEFAULT_VOICE))
         (or_else (get (or_else (body req) (Obj [])) "model") (Str DEFAULT_MODEL))
         (reply io) w).
Proof.
  intros H1 H2 Htext Hnb. split.
  - unfold wav_key, makeKey in H1, H2.
    destruct (ToString model) as [m|]; [|discriminate].
    destruct (ToString voice) as [v|]; [|discriminate].
    cbn [bind] in H1, H2. injection H1 as <-. injection H2 as <-.
    split; [|now intros ->].
    intros H. do 5 apply append_inj_r in H. exact H.
  - unfold tts. rewrite Htext, text_of_Str, Hnb.
    destruct (synthesizeToWav _ _ _ _ _) as [[wavBuf|err] w']; [|reflexivity].
    now destruct (strict_eq_str _ _).
Qed.

(** C7.  A /tts request whose [text] is absent, empty or made of white
    space only is answered 400 with the validation message, and the
    world is untouched: no backend call, no cache write. *)
Theorem tts_rejects_blank_text (req : Request) (io : IO) (w : World) :
  (get (or_else (body req) (Obj [])) "text" = Undefined \/
   exists s, get (or_else (body req) (Obj [])) "text" = Str s /\ whitespace_only s = true) ->
  tts req io w = (json 400 (Obj [("error", Str missing_text_string)]), w) /\
  calls (snd (tts req io w)) = calls w.
Proof.
  intros Hblank.
  assert (H : tts req io w = (json 400 (Obj [("error", Str missing_text_string)]), w)).
  { unfold tts. destruct Hblank as [->|(s & -> & Hws)].
    - now rewrite text_of_Undefined.
    - now rewrite text_of_Str, trim_whitespace_only. }
  now rewrite H.
Qed.

(** ** The webhook *)

Lemma secret_mismatch_true (s : string) (token : option string) :
  s <> EmptyString -> token <> Some s -> secret_mismatch (Some s) token = true.
Proof.
  intros Hs Ht. unfold secret_mismatch.
  destruct s; [done|]. cbn [is_empty].
  destruct token as [t|]; [|reflexivity].
  destruct (String.eqb_spec t (String a s)); [congruence|reflexivity].
Qed.

(** C9.  With a secret configured (VAPI_TTS_SECRET set and not empty), a
    request whose x-vapi-signature is absent or differs from it is
    answered 401 Unauthorized and nothing else happens.  With no secret
    configured (the variable unset, or empty, which [expected &&] takes
    for unset) the answer is never 401 and does not depend on the header
    at all. *)
Theorem vapi_tts_secret_check (req : Request) (io : IO) (w : World) :
  (forall s, env_VAPI_TTS_SECRET env = Some s -> s <> EmptyString ->
     x_vapi_signature req <> Some s ->
     vapi_tts req io w = (json 401 (Obj [("error", Str "Unauthorized")]), w)) /\
  (env_VAPI_TTS_SECRET env = None \/ env_VAPI_TTS_SECRET env = Some EmptyString ->
     status (fst (vapi_tts req io w)) <> 401 /\
     forall token, vapi_tts (with_signature token req) io w = vapi_tts req io w).
Proof.
  split.
  - intros s Hs Hne Htok. unfold vapi_tts.
    now rewrite Hs, secret_mismatch_true.
  - intros Hnone.
    assert (Hpass : forall token, secret_mismatch (env_VAPI_TTS_SECRET env) token = false)
      by (intros token; destruct Hnone as [-> | ->]; reflexivity).
    split.
    + unfold vapi_tts. rewrite Hpass.
      repeat match goal with
      | |- context [if ?c then _ else _] => destruct c; cbn; try discriminate
      | |- context [match ?x with _ => _ end] => destruct x; cbn; try discriminate
      end.
    + intros token. unfold vapi_tts. now rewrite !Hpass.
Qed.

(** C10.  A /vapi-tts request that passes the secret check, with
    [message.type] "voice-request" and a non-blank text, is synthesized
    when [message.sampleRate] is missing (24000 is assumed) and when it
    is the string "24000" (converted by [Number]): the answer is the
    PCM of [synthesizeToPcm], or its failure as a 500, never a 400. *)
Theorem vapi_tts_sample_rate_default (req : Request) (io : IO) (w : World)
    (message : Value) (s : string) :
  secret_mismatch (env_VAPI_TTS_SECRET env) (x_vapi_signature req) = false ->
  get (or_else (body req) (Obj [])) "message" = message ->
  get message "type" = Str "voice-request" ->
  get message "text" = Str s ->
  is_empty (trim s) = false ->
  (get message "sampleRate" = Undefined \/ get message "sampleRate" = Str "24000") ->
  vapi_tts req io w =
    match synthesizeToPcm s (Str DEFAULT_VOICE) (Str DEFAULT_MODEL) (reply io) w with
    | (Throw err, w') => (tts_failed err, w')
    | (Ok pcm, w') =>
        ({| status := 200;
            headers := [("Content-Type", "application/octet-stream")];
            content := Bytes pcm |}, w')
    end /\
  status (fst (vapi_tts req io w)) <> 400.
Proof.
  intros Hauth Hmsg Htype Htext Hnb Hrate.
  assert (Htruthy : truthy message = true).
  { destruct message; cbn in Htype; try discriminate. reflexivity. }
  assert (Hnum : ToNumber (or_else (get message "sampleRate") (Number 24000)) = Ok (Fin 24000)).
  { destruct Hrate as [->| ->]; reflexivity. }
  assert (H : vapi_tts req io w =
    match synthesizeToPcm s (Str DEFAULT_VOICE) (Str DEFAULT_MODEL) (reply io) w with
    | (Throw err, w') => (tts_failed err, w')
    | (Ok pcm, w') =>
        ({| status := 200;
            headers := [("Content-Type", "application/octet-stream")];
            content := Bytes pcm |}, w')
    end).
  { unfold vapi_tts. rewrite Hauth, Hmsg, Htruthy, Htype, Htext, text_of_Str, Hnum, Hnb.
    reflexivity. }
  split; [exact H|]. rewrite H.
  destruct (synthesizeToPcm _ _ _ _ _) as [[pcm|err] w']; cbn; discriminate.
Qed.


(** ** The batch *)

(** Phase one reads the clock and [audioCache] and only appends to the
    call log. *)
Lemma item_start_frame (item : Value) (w : World) :
  clock (snd (item_start item w)) = clock w /\
  audioCache (snd (item_start item w)) = audioCache w.
Proof.
  unfold item_start, synthesizeToWav_start.
  destruct (ToString _) as [t|]; [|now split].
  destruct (is_empty (trim t)); [now split|].
  destruct (wav_key _ _ _) as [key|]; [|now split].
  destruct (fresh _ _ _); now split.
Qed.

Lemma item_start_state (item : Value) (w w' : World) :
  clock w = clock w' -> audioCache w = audioCache w' ->
  fst (item_start item w) = fst (item_start item w').
Proof.
  intros Hc Ha. unfold item_start, synthesizeToWav_start.
  destruct (ToString _) as [t|]; [|reflexivity].
  destruct (is_empty (trim t)); [reflexivity|].
  destruct (wav_key _ _ _) as [key|]; [|reflexivity].
  rewrite Hc, Ha. destruct (fresh _ _ _); reflexivity.
Qed.

Lemma start_all_frame (items : list Value) (w : World) :
  clock (snd (start_all items w)) = clock w /\
  audioCache (snd (start_all items w)) = audioCache w.
Proof.
  revert w. induction items as [|item items IH]; intros w; cbn [start_all]; [now split|].
  destruct (item_start item w) as [st w1] eqn:E1.
  destruct (start_all items w1) as [sts w2] eqn:E2. cbn [snd].
  pose proof (item_start_frame item w) as [Hc1 Ha1]. rewrite E1 in Hc1, Ha1.
  pose proof (IH w1) as [Hc2 Ha2]. rewrite E2 in Hc2, Ha2. cbn [snd] in *.
  split; congruence.
Qed.

(** Every callback starts from the cache and the clock the request
    found: the siblings started before it have written nothing. *)
Lemma start_all_lookup (items : list Value) (w : World) (i : nat) (item : Value) :
  items !! i = Some item ->
  fst (start_all items w) !! i = Some (fst (item_start item w)).
Proof.
  revert w i. induction items as [|it items IH]; intros w i Hi; [done|].
  cbn [start_all].
  destruct (item_start it w) as [st w1] eqn:E1.
  destruct (start_all items w1) as [sts w2] eqn:E2. cbn [fst].
  destruct i as [|i]; cbn in Hi.
  - injection Hi as <-. now rewrite E1.
  - specialize (IH w1 i Hi). rewrite E2 in IH. cbn [fst] in IH.
    change (sts !! i = Some (fst (item_start item w))). rewrite IH.
    f_equal. apply item_start_state.
    + pose proof (item_start_frame it w) as [Hc _]. now rewrite E1 in Hc.
    + pose proof (item_start_frame it w) as [_ Ha]. now rewrite E1 in Ha.
Qed.

Lemma start_all_length (items : list Value) (w : World) :
  length (fst (start_all items w)) = length items.
Proof.
  revert w. induction items as [|it items IH]; intros w; [reflexivity|].
  cbn [start_all]. destruct (item_start it w) as [st w1].
  specialize (IH w1). destruct (start_all items w1) as [sts w2]. cbn in *. lia.
Qed.

(** The value a continuation produces does not depend on the world it
    runs in: it writes the cache and the directory, it reads neither. *)
Lemma item_settle_value (req : Request) (st : ItemState) (io : IO) (w w' : World) :
  fst (item_settle req st io w) = fst (item_settle req st io w').
Proof.
  destruct st as [result|t m v wavBuf|t m v key now]; cbn [item_settle].
  - reflexivity.
  - unfold item_finish, writeFileSync. now destruct (write_error io).
  - unfold synthesizeToWav_resume, item_finish, writeFileSync.
    destruct (outcome (reply io)) as [msg|[base64|]]; try reflexivity.
    destruct (is_empty base64); [reflexivity|].
    destruct (pcm16ToWav _ _ _ _); [|reflexivity].
    now destruct (write_error io).
Qed.

Lemma settle_all_length (req : Request) (ios : nat -> IO) (sts : list ItemState)
    (order : list nat) (values : list Value) (w : World) :
  length (fst (settle_all req ios sts order values w)) = length values.
Proof.
  revert values w. induction order as [|j order IH]; intros values w; [reflexivity|].
  cbn [settle_all]. destruct (sts !! j) as [st|]; [|apply IH].
  destruct (item_settle req st (ios j) w) as [v w1].
  now rewrite IH, length_insert.
Qed.

Lemma settle_all_untouched (req : Request) (ios : nat -> IO) (sts : list ItemState)
    (order : list nat) (values : list Value) (w : World) (i : nat) :
  i ∉ order ->
  fst (settle_all req ios sts order values w) !! i = values !! i.
Proof.
  revert values w. induction order as [|j order IH]; intros values w Hi; [reflexivity|].
  apply not_elem_of_cons in Hi as [Hne Hi].
  cbn [settle_all]. destruct (sts !! j) as [st|]; [|now apply IH].
  destruct (item_settle req st (ios j) w) as [v w1].
  rewrite IH by done. now apply list_lookup_insert_ne.
Qed.

(** [Promise.all] ends with the value of item [i] at index [i], whatever
    the order in which the continuations ran. *)
Lemma settle_all_lookup (req : Request) (ios : nat -> IO) (sts : list ItemState)
    (order : list nat) (values : list Value) (w w0 : World) (i : nat) (st : ItemState) :
  i ∈ order -> sts !! i = Some st -> (i < length values)%nat ->
  fst (settle_all req ios sts order values w) !! i =
  Some (fst (item_settle req st (ios i) w0)).
Proof.
  revert values w. induction order as [|j order IH]; intros values w Hi Hst Hlen.
  - now apply elem_of_nil in Hi.
  - cbn [settle_all]. destruct (decide (i ∈ order)) as [Hin|Hnin].
    + destruct (sts !! j) as [stj|]; [|now apply IH].
      destruct (item_settle req stj (ios j) w) as [v w1].
      apply IH; [done..|]. now rewrite length_insert.
    + apply elem_of_cons in Hi as [Heq|Hin]; [subst j|done].
      rewrite Hst.
      destruct (item_settle req st (ios i) w) as [v w1] eqn:E.
      rewrite settle_all_untouched by done.
      rewrite list_lookup_insert_eq by done.
      f_equal. change v with (fst (v, w1)). rewrite <- E. apply item_settle_value.
Qed.

Lemma elem_of_insert_by (cost : nat -> Z) (i j : nat) (l : list nat) :
  j ∈ insert_by cost i l <-> j = i \/ j ∈ l.
Proof.
  induction l as [|k l IH]; cbn [insert_by].
  - rewrite list_elem_of_singleton, elem_of_nil. tauto.
  - destruct (cost i <? cost k); rewrite !elem_of_cons, ?IH; tauto.
Qed.

Lemma elem_of_sort_by (cost : nat -> Z) (j : nat) (l : list nat) :
  j ∈ sort_by cost l <-> j ∈ l.
Proof.
  induction l as [|i l IH]; cbn; [done|].
  rewrite elem_of_insert_by, elem_of_cons, IH. tauto.
Qed.

Lemma elem_of_indices_where (p : ItemState -> bool) (from : nat) (sts : list ItemState)
    (j : nat) (st : ItemState) :
  sts !! j = Some st -> p st = true -> (from + j)%nat ∈ indices_where p from sts.
Proof.
  revert from j. induction sts as [|st0 sts IH]; intros from j Hj Hp; [done|].
  cbn [indices_where]. destruct j as [|j]; cbn in Hj.
  - injection Hj as ->. rewrite Hp, Nat.add_0_r. apply elem_of_cons. now left.
  - replace (from + S j)%nat with (S from + j)%nat by lia.
    destruct (p st0); [apply elem_of_cons; right|]; now apply IH.
Qed.

(** Every callback continues. *)
Lemma completion_order_complete (ios : nat -> IO) (sts : list ItemState)
    (i : nat) (st : ItemState) :
  sts !! i = Some st -> i ∈ completion_order ios sts.
Proof.
  intros Hi. unfold completion_order. apply elem_of_app.
  destruct (is_pending st) eqn:Hp.
  - right. apply elem_of_sort_by.
    now apply (elem_of_indices_where is_pending 0 sts i st).
  - left. apply (elem_of_indices_where (fun st => negb (is_pending st)) 0 sts i st Hi).
    now rewrite Hp.
Qed.

Lemma insert_by_Permutation (cost : nat -> Z) (i : nat) (l : list nat) :
  insert_by cost i l ≡ₚ i :: l.
Proof.
  induction l as [|j l IH]; cbn [insert_by]; [done|].
  destruct (cost i <? cost j); [done|].
  rewrite IH. apply Permutation_swap.
Qed.

Lemma sort_by_Permutation (cost : nat -> Z) (l : list nat) : sort_by cost l ≡ₚ l.
Proof.
  induction l as [|i l IH]; cbn; [done|].
  now rewrite insert_by_Permutation, IH.
Qed.

Lemma indices_where_split (p : ItemState -> bool) (from : nat) (sts : list ItemState) :
  indices_where (fun st => negb (p st)) from sts ++ indices_where p from sts
  ≡ₚ seq from (length sts).
Proof.
  revert from. induction sts as [|st sts IH]; intros from; cbn; [done|].
  destruct (p st); cbn.
  - rewrite <- Permutation_middle. now rewrite IH.
  - now rewrite IH.
Qed.

(** Each callback continues exactly once. *)
Lemma completion_order_Permutation (ios : nat -> IO) (sts : list ItemState) :
  completion_order ios sts ≡ₚ seq 0 (length sts).
Proof.
  unfold completion_order. rewrite sort_by_Permutation. apply indices_where_split.
Qed.

Lemma batch_results_length (req : Request) (ios : nat -> IO) (items : list Value) (w : World) :
  length (fst (batch_results req ios items w)) = length items.
Proof.
  unfold batch_results. destruct (start_all items w) as [sts w1].
  now rewrite settle_all_length, length_replicate.
Qed.

(** The batch answers, at each index, the result of that item alone. *)
Lemma batch_results_lookup (req : Request) (ios : nat -> IO) (items : list Value)
    (w : World) (i : nat) (item : Value) :
  items !! i = Some item ->
  fst (batch_results req ios items w) !! i = Some (item_result req item (ios i) w).
Proof.
  intros Hi. unfold batch_results, item_result.
  pose proof (start_all_lookup items w i item Hi) as Hst.
  destruct (start_all items w) as [sts w1]. cbn [fst] in Hst.
  apply settle_all_lookup; [|done|].
  - now apply (completion_order_complete ios sts i (fst (item_start item w))).
  - rewrite length_replicate. now apply lookup_lt_Some in Hi.
Qed.


Lemma item_error_shape (e : Exn) : exists m, item_error e = Obj [("error", Str m)].
Proof.
  unfold item_error.
  destruct e as [m| | |[m|]|m]; cbn [message_of];
    try (destruct m; cbn; eauto); cbn; eauto;
    unfold or_else; cbn [truthy];
    match goal with |- context [is_empty ?x] => destruct (is_empty x) end; cbn; eauto.
Qed.

Lemma item_finish_shape (req : Request) (t : string) (m v : Value) (wavBuf : Buffer)
    (io : IO) (w : World) :
  keys (fst (item_finish req t m v wavBuf io w)) =
    ["text"; "url"; "model"; "voice"; "sampleRate"; "channels"] \/
  exists msg, fst (item_finish req t m v wavBuf io w) = Obj [("error", Str msg)].
Proof.
  unfold item_finish, writeFileSync. destruct (write_error io); cbn [fst].
  - right. apply item_error_shape.
  - now left.
Qed.

(** A result is the success object or an object with an [error] string
    and nothing else. *)
Lemma item_result_shape (req : Request) (item : Value) (io : IO) (w : World) :
  keys (item_result req item io w) =
    ["text"; "url"; "model"; "voice"; "sampleRate"; "channels"] \/
  exists msg, item_result req item io w = Obj [("error", Str msg)].
Proof.
  unfold item_result, item_start, synthesizeToWav_start.
  destruct (ToString _) as [t|e]; cbn [fst snd item_settle]; [|right; apply item_error_shape].
  destruct (is_empty (trim t)); cbn [fst snd item_settle]; [right; eauto|].
  destruct (wav_key _ _ _) as [key|e]; cbn [fst snd item_settle];
    [|right; apply item_error_shape].
  destruct (fresh _ _ _) as [wavBuf|]; cbn [fst snd item_settle].
  - apply item_finish_shape.
  - unfold synthesizeToWav_resume.
    destruct (outcome (reply io)) as [msg|[base64|]]; cbn [fst];
      try (right; apply item_error_shape).
    destruct (is_empty base64); cbn [fst]; [right; apply item_error_shape|].
    destruct (pcm16ToWav _ _ _ _); cbn [fst]; [|right; apply item_error_shape].
    apply item_finish_shape.
Qed.

(** C8 (as amended).  A /batch-url request with a non-empty [items]
    array is answered 200 with one result per item, in input order.
    The result at index [i] is the result of item [i] taken alone, from
    the world the request found and the environment's answers to that
    item; so it is the same in any other batch that has the same item
    and answers at that index, whatever its siblings are and however
    they end.  Each result is either the object
    [{ text, url, model, voice, sampleRate, channels }] or an object
    holding an [error] string only. *)
Theorem batch_url_results (req : Request) (ios : nat -> IO) (w : World)
    (item : Value) (rest : list Value) :
  get (or_else (body req) (Obj [])) "items" = Arr (item :: rest) ->
  exists results,
    fst (batch_url req ios w) = json 200 (Obj [("results", Arr results)]) /\
    length results = length (item :: rest) /\
    (forall i it, (item :: rest) !! i = Some it ->
       results !! i = Some (item_result req it (ios i) w)) /\
    (forall i it items' ios', (item :: rest) !! i = Some it ->
       items' !! i = Some it -> ios' i = ios i ->
       fst (batch_results req ios' items' w) !! i = results !! i) /\
    (forall r, r ∈ results ->
       keys r = ["text"; "url"; "model"; "voice"; "sampleRate"; "channels"] \/
       exists msg, r = Obj [("error", Str msg)]).
Proof.
  intros Hitems. exists (fst (batch_results req ios (item :: rest) w)).
  repeat match goal with |- _ /\ _ => split end.
  - unfold batch_url. rewrite Hitems.
    now destruct (batch_results req ios (item :: rest) w).
  - apply batch_results_length.
  - intros i it Hi. now apply batch_results_lookup.
  - intros i it items' ios' Hi Hi' Hio.
    rewrite (batch_results_lookup req ios' items' w i it Hi').
    rewrite (batch_results_lookup req ios (item :: rest) w i it Hi).
    now rewrite Hio.
  - intros r Hr. apply list_elem_of_lookup in Hr as [i Hr].
    assert (Hlt : (i < length (item :: rest))%nat).
    { rewrite <- (batch_results_length req ios (item :: rest) w).
      now apply lookup_lt_Some in Hr. }
    apply lookup_lt_is_Some in Hlt as [it Hit].
    rewrite (batch_results_lookup req ios (item :: rest) w i it Hit) in Hr.
    injection Hr as <-. apply item_result_shape.
Qed.

(** * Further properties of the code *)

(** ** The encoder, for every profile *)

Lemma writeUIntLE_fits (n : nat) (value : Q) (offset : nat) (buf : Buffer) :
  (offset + n <= length buf)%nat ->
  writeUIntLE n value offset buf =
  if out_of_range value (2 ^ (8 * Z.of_nat n) - 1) then Throw RangeError
  else Ok (splice offset (le_bytes n (Qfloor value)) buf).
Proof.
  intros H. unfold writeUIntLE.
  destruct (out_of_range _ _); [reflexivity|].
  now replace (length buf <? offset + n)%nat with false by (symmetry; apply Nat.ltb_ge; lia).
Qed.


Lemma le_bytes_2_shape (z : Z) : exists a b, le_bytes 2 z = [a; b].
Proof. cbn [le_bytes]. eauto. Qed.

(** The closed form of [pcm16ToWav]: a RangeError when one of the six
    values computed from the arguments leaves its field, else the header
    laid out field by field, followed by the PCM bytes. *)
Lemma pcm16ToWav_closed_form (pcm : Buffer) (sampleRate channels bitsPerSample : Q) :
  pcm16ToWav pcm sampleRate channels bitsPerSample =
  if out_of_range (inject_Z (36 + Z.of_nat (length pcm))) 4294967295
     || out_of_range channels 65535
     || out_of_range sampleRate 4294967295
     || out_of_range (sampleRate * channels * (bitsPerSample / 8)) 4294967295
     || out_of_range (channels * (bitsPerSample / 8)) 65535
     || out_of_range bitsPerSample 65535
  then Throw RangeError
  else Ok (list_byte_of_string "RIFF" ++
           le_bytes 4 (36 + Z.of_nat (length pcm)) ++
           list_byte_of_string "WAVEfmt " ++
           le_bytes 4 16 ++ le_bytes 2 1 ++
           le_bytes 2 (Qfloor channels) ++
           le_bytes 4 (Qfloor sampleRate) ++
           le_bytes 4 (Qfloor (sampleRate * channels * (bitsPerSample / 8))) ++
           le_bytes 2 (Qfloor (channels * (bitsPerSample / 8))) ++
           le_bytes 2 (Qfloor bitsPerSample) ++
           list_byte_of_string "data" ++
           le_bytes 4 (Z.of_nat (length pcm)) ++ pcm).
Proof.
  unfold pcm16ToWav, writeUInt32LE, writeUInt16LE. cbv zeta.
  change 4294967295 with (2 ^ (8 * Z.of_nat 4) - 1).
  change 65535 with (2 ^ (8 * Z.of_nat 2) - 1).
  destruct (le_bytes_4_shape (36 + Z.of_nat (length pcm))) as (a1 & a2 & a3 & a4 & E1).
  destruct (le_bytes_2_shape (Qfloor channels)) as (b1 & b2 & E2).
  destruct (le_bytes_4_shape (Qfloor sampleRate)) as (c1 & c2 & c3 & c4 & E3).
  destruct (le_bytes_4_shape (Qfloor (sampleRate * channels * (bitsPerSample / 8))))
    as (d1 & d2 & d3 & d4 & E4).
  destruct (le_bytes_2_shape (Qfloor (channels * (bitsPerSample / 8)))) as (e1 & e2 & E5).
  destruct (le_bytes_2_shape (Qfloor bitsPerSample)) as (f1 & f2 & E6).
  destruct (le_bytes_4_shape (Z.of_nat (length pcm))) as (g1 & g2 & g3 & g4 & E7).
  rewrite E1, E2, E3, E4, E5, E6, E7.
  repeat (rewrite writeUIntLE_fits by (vm_compute; lia);
          rewrite ?Qfloor_Z, ?E1, ?E2, ?E3, ?E4, ?E5, ?E6, ?E7;
          lazymatch goal with
          | |- bind (if out_of_range ?v ?m then _ else _) _ = _ =>
              let E := fresh "E" in
              destruct (out_of_range v m) eqn:E;
              [first [discriminate E | reflexivity]|]
          end;
          rewrite bind_Ok; cbv beta; cbn [orb]).
  rewrite writeUIntLE_fits by (vm_compute; lia).
  replace (out_of_range (inject_Z (Z.of_nat (length pcm))) (2 ^ (8 * Z.of_nat 4) - 1))
    with false.
  - rewrite Qfloor_Z, E7. reflexivity.
  - rewrite out_of_range_Z in *. symmetry. apply negb_false_iff.
    apply negb_false_iff, andb_true_iff in E as [_ E]. apply Z.leb_le in E.
    apply andb_true_iff. split; apply Z.leb_le; lia.
Qed.


Ltac wav_shapes pcm sampleRate channels bitsPerSample :=
  destruct (le_bytes_4_shape (36 + Z.of_nat (length pcm))) as (?a & ?a & ?a & ?a & ?E);
  destruct (le_bytes_2_shape (Qfloor channels)) as (?b & ?b & ?E);
  destruct (le_bytes_4_shape (Qfloor sampleRate)) as (?c & ?c & ?c & ?c & ?E);
  destruct (le_bytes_4_shape (Qfloor (sampleRate * channels * (bitsPerSample / 8))))
    as (?d & ?d & ?d & ?d & ?E);
  destruct (le_bytes_2_shape (Qfloor (channels * (bitsPerSample / 8)))) as (?e & ?e & ?E);
  destruct (le_bytes_2_shape (Qfloor bitsPerSample)) as (?f & ?f & ?E);
  destruct (le_bytes_4_shape (Z.of_nat (length pcm))) as (?g & ?g & ?g & ?g & ?E).

(** X1.  For every sample rate, channel count and sample size: when
    [pcm16ToWav] returns, the result is 44 header bytes followed by the
    PCM bytes untouched; the header carries the three tags, the fmt
    chunk size 16 and the PCM format tag 1. *)
Theorem pcm16ToWav_keeps_pcm (pcm : Buffer) (sampleRate channels bitsPerSample : Q)
    (out : Buffer) :
  pcm16ToWav pcm sampleRate channels bitsPerSample = Ok out ->
  length out = (44 + length pcm)%nat /\
  skipn 44 out = pcm /\
  slice 0 4 out = list_byte_of_string "RIFF" /\
  slice 8 16 out = list_byte_of_string "WAVEfmt " /\
  slice 36 40 out = list_byte_of_string "data" /\
  readUInt32LE 16 out = Some 16 /\
  readUInt16LE 20 out = Some 1.
Proof.
  rewrite pcm16ToWav_closed_form.
  destruct (_ || _); [discriminate|]. intros [= <-].
  wav_shapes pcm sampleRate channels bitsPerSample.
  repeat match goal with E : le_bytes _ _ = _ |- _ => rewrite E; clear E end.
  repeat match goal with |- _ /\ _ => split end; reflexivity.
Qed.



(** ** The gateway: failures, composition, colliding keys *)

(** X4.  A synthesis that fails leaves both caches and the directory as
    they were, so nothing is remembered of the failure.  Either the key
    could not be built and nothing happened at all, or exactly one
    backend call was issued and the error is the backend's rejection,
    "No audio produced by model" for an absent or empty payload, or the
    error of shaping the decoded bytes. *)
Theorem failed_synthesis_caches_nothing (wantWav : bool) (text : string)
    (voice model : Value) (r : Reply) (w w' : World) (e : Exn) :
  synthesize wantWav text voice model r w = (Throw e, w') ->
  audioCache w' = audioCache w /\ pcmCache w' = pcmCache w /\ files w' = files w /\
  ((key_of wantWav text voice model = Throw e /\ w' = w) \/
   (calls w' = calls w ++ [{| g_model := model; g_voice := voice; g_text := text |}] /\
    clock w' = clock w + latency r /\
    ((exists m, outcome r = Rejects m /\ e = Rejected m) \/
     ((outcome r = Responds None \/ outcome r = Responds (Some EmptyString)) /\
      e = JsError "No audio produced by model") \/
     (exists base64, outcome r = Responds (Some base64) /\
                     shaped wantWav (from_base64 rt base64) = Throw e)))).
Proof.
  rewrite synthesize_unfold.
  destruct (key_of wantWav text voice model) as [key|e0].
  2: { intros [= <- <-]. repeat split; try reflexivity. now left. }
  destruct (fresh _ _ _); [discriminate|]. cbv zeta.
  destruct (outcome r) as [m|[base64|]] eqn:Ho.
  - intros [= <- <-]. repeat split; try reflexivity. right. repeat split; eauto.
  - destruct base64 as [|c base64]; cbn [is_empty].
    + intros [= <- <-]. repeat split; try reflexivity. right. repeat split; eauto.
    + destruct (shaped _ _) eqn:Hs; [discriminate|].
      intros [= <- <-]. repeat split; try reflexivity. right. repeat split; eauto 10.
  - intros [= <- <-]. repeat split; try reflexivity. right. repeat split; eauto.
Qed.

Lemma wav_key_pcm_key (text : string) (voice model : Value) :
  wav_key text voice model = (k <- makeKey text voice model ;; Ok ("wav::" +:+ k)) /\
  pcm_key text voice model = (k <- makeKey text voice model ;; Ok ("pcm::" +:+ k)).
Proof. now split. Qed.

(** X5.  On a miss in both caches, the WAV gateway answers what the PCM
    gateway answers wrapped by [pcm16ToWav] for 24 kHz, mono, 16 bits:
    the same error, or the WAV file of the same PCM bytes. *)
Theorem wav_gateway_wraps_pcm_gateway (text : string) (voice model : Value)
    (r : Reply) (w : World) :
  (forall key, wav_key text voice model = Ok key ->
               fresh (audioCache w) key (clock w) = None) ->
  (forall key, pcm_key text voice model = Ok key ->
               fresh (pcmCache w) key (clock w) = None) ->
  fst (synthesizeToWav text voice model r w) =
  (pcm <- fst (synthesizeToPcm text voice model r w) ;; pcm16ToWav pcm 24000 1 16).
Proof.
  intros Hw Hp.
  change synthesizeToWav with (synthesize true).
  change synthesizeToPcm with (synthesize false).
  rewrite !synthesize_unfold. cbn [key_of cache_of shaped].
  unfold wav_key, pcm_key in *.
  destruct (makeKey text voice model) as [k|e]; cbn [bind] in *; [|reflexivity].
  rewrite (Hw _ eq_refl), (Hp _ eq_refl). cbv zeta.
  destruct (outcome r) as [m|[base64|]]; try reflexivity.
  destruct (is_empty base64); [reflexivity|]. cbn [fst bind].
  now destruct (pcm16ToWav _ _ _ _).
Qed.

Lemma append_assoc_L (a b c : string) : (a +:+ b) +:+ c = a +:+ (b +:+ c).
Proof.
  induction a as [|x a IH]; [reflexivity|].
  change (String x ((a +:+ b) +:+ c) = String x (a +:+ (b +:+ c))). now rewrite IH.
Qed.

(** X6.  The delimiter of [makeKey] can occur inside its parts: model
    [a::b] with voice [c] and model [a] with voice [b::c] get the same
    fingerprint for the same text.  So once the first has been
    synthesized, the second, within the TTL, is answered with the
    audio of the first and no backend call is made for it. *)
Theorem delimiter_collision_shares_entry (a b c text : string) (r1 r2 : Reply)
    (w w1 : World) (buf : Buffer) (t2 : Z) :
  synthesizeToWav text (Str c) (Str (a +:+ "::" +:+ b)) r1 w = (Ok buf, w1) ->
  (forall key e, wav_key text (Str c) (Str (a +:+ "::" +:+ b)) = Ok key ->
                 audioCache w1 !! key = Some e -> t2 - createdAt e < CACHE_TTL_MS) ->
  wav_key text (Str (b +:+ "::" +:+ c)) (Str a) =
    wav_key text (Str c) (Str (a +:+ "::" +:+ b)) /\
  synthesizeToWav text (Str (b +:+ "::" +:+ c)) (Str a) r2 (set_clock t2 w1) =
    (Ok buf, set_clock t2 w1).
Proof.
  intros H1 Httl.
  assert (Hkey : wav_key text (Str (b +:+ "::" +:+ c)) (Str a) =
                 wav_key text (Str c) (Str (a +:+ "::" +:+ b))).
  { unfold wav_key, makeKey. cbn [ToString bind]. f_equal.
    now rewrite !append_assoc_L. }
  split; [exact Hkey|].
  apply (synthesize_Ok true) in H1 as (key & e & Hk & He & Hp & _).
  cbn [key_of cache_of] in *.
  change synthesizeToWav with (synthesize true). rewrite synthesize_unfold.
  cbn [key_of cache_of]. rewrite Hkey, Hk.
  assert (Hf : fresh (audioCache (set_clock t2 w1)) key (clock (set_clock t2 w1)) = Some buf).
  { apply fresh_Some. exists e. cbn. eauto. }
  now rewrite Hf.
Qed.

(** ** The handlers: what a rejected request does, and when *)

Ltac split_cases :=
  repeat match goal with
  | |- context [match ?x with _ => _ end] =>
      lazymatch x with
      | context [match _ with _ => _ end] => fail
      | _ => destruct x eqn:?
      end
  end.

(** X7.  A request answered 400 or 401 has changed nothing: no backend
    call, no cache entry, no file, whichever of the four POST routes it
    was sent to. *)
Theorem client_errors_change_nothing (req : Request) (io : IO) (ios : nat -> IO) (w : World) :
  (status (fst (tts req io w)) = 400 -> snd (tts req io w) = w) /\
  (status (fst (tts_url req io w)) = 400 -> snd (tts_url req io w) = w) /\
  (status (fst (batch_url req ios w)) = 400 -> snd (batch_url req ios w) = w) /\
  (status (fst (vapi_tts req io w)) = 400 \/ status (fst (vapi_tts req io w)) = 401 ->
   snd (vapi_tts req io w) = w).
Proof.
  repeat match goal with |- _ /\ _ => split end.
  - unfold tts. split_cases; cbn; first [reflexivity | discriminate].
  - unfold tts_url. split_cases; cbn; first [reflexivity | discriminate].
  - unfold batch_url. split_cases; cbn; first [reflexivity | discriminate].
  - unfold vapi_tts. split_cases; cbn; first [reflexivity | intros [?|?]; discriminate].
Qed.

Lemma trimEnd_empty (s : string) : trimEnd s = EmptyString -> whitespace_only s = true.
Proof.
  induction s as [|c s IH]; cbn; [reflexivity|].
  destruct (trimEnd s); [|discriminate].
  destruct (is_white_space c); [auto|discriminate].
Qed.

Lemma trimStart_whitespace (s : string) :
  whitespace_only (trimStart s) = true -> whitespace_only s = true.
Proof.
  induction s as [|c s IH]; cbn; [reflexivity|].
  destruct (is_white_space c) eqn:E; cbn; [exact IH|now rewrite E].
Qed.

(** [trim] leaves nothing exactly of the strings made of white space. *)
Lemma trim_empty_iff (s : string) : is_empty (trim s) = true <-> whitespace_only s = true.
Proof.
  split.
  - intros H. apply trimStart_whitespace, trimEnd_empty.
    unfold trim in H. now destruct (trimEnd (trimStart s)).
  - intros H. now rewrite trim_whitespace_only.
Qed.

(** X8.  For a string [text], /tts and /tts-url answer 400 exactly when
    the string is empty or made of white space only; a text with any
    other character in it is never rejected as missing. *)
Theorem text_is_rejected_iff_blank (req : Request) (io : IO) (w : World) (s : string) :
  get (or_else (body req) (Obj [])) "text" = Str s ->
  (status (fst (tts req io w)) = 400 <-> whitespace_only s = true) /\
  (status (fst (tts_url req io w)) = 400 <-> whitespace_only s = true).
Proof.
  intros Htext. rewrite <- trim_empty_iff. unfold tts, tts_url.
  rewrite Htext, text_of_Str.
  destruct (is_empty (trim s)); [now split|].
  split; (split; [|discriminate]); split_cases; cbn; discriminate.
Qed.

(** X9.  An upstream failure on a cache miss: when the backend rejects,
    or resolves without an audio payload, /tts and /tts-url answer 500
    "TTS failed" with the backend's message, or "No audio produced by
    model", as detail.  The call is logged and the clock has advanced;
    nothing is cached and no file is written. *)
Theorem upstream_failure_is_a_500 (req : Request) (io : IO) (w : World)
    (s key : string) :
  let b := or_else (body req) (Obj []) in
  let useVoice := or_else (get b "voice") (Str DEFAULT_VOICE) in
  let useModel := or_else (get b "model") (Str DEFAULT_MODEL) in
  let detail := match outcome (reply io) with
                | Rejects (Some m) => Str m
                | Rejects None => Undefined
                | Responds _ => Str "No audio produced by model"
                end in
  let w' := set_clock (clock w + latency (reply io))
              (send {| g_model := useModel; g_voice := useVoice; g_text := s |} w) in
  get b "text" = Str s ->
  is_empty (trim s) = false ->
  wav_key s useVoice useModel = Ok key ->
  fresh (audioCache w) key (clock w) = None ->
  (forall base64, outcome (reply io) = Responds (Some base64) -> base64 = EmptyString) ->
  tts req io w = (json 500 (Obj [("error", Str "TTS failed"); ("detail", detail)]), w') /\
  tts_url req io w = (json 500 (Obj [("error", Str "TTS failed"); ("detail", detail)]), w').
Proof.
  intros b useVoice useModel detail w' Htext Hnb Hkey Hmiss Hout.
  assert (Hs : synthesizeToWav s useVoice useModel (reply io) w =
               (Throw match outcome (reply io) with
                      | Rejects m => Rejected m
                      | Responds _ => no_audio
                      end, w')).
  { change synthesizeToWav with (synthesize true). rewrite synthesize_unfold.
    cbn [key_of cache_of]. rewrite Hkey, Hmiss. cbv zeta. fold w'.
    destruct (outcome (reply io)) as [m|[base64|]]; try reflexivity.
    now rewrite (Hout base64 eq_refl). }
  unfold tts, tts_url. fold b. rewrite Htext, text_of_Str, Hnb.
  fold useVoice useModel. rewrite Hs. unfold tts_failed, detail.
  destruct (outcome (reply io)) as [[m|]|d]; now split.
Qed.


Lemma env_or_not_empty (x : option string) (fallback : string) :
  is_empty fallback = false -> is_empty (env_or x fallback) = false.
Proof.
  intros H. unfold env_or. destruct x as [s|]; [|exact H].
  now destruct (is_empty s) eqn:E.
Qed.

Lemma or_else_default_truthy (v : Value) (d : string) :
  is_empty d = false -> truthy (or_else v (Str d)) = true.
Proof.
  intros H. unfold or_else. destruct (truthy v) eqn:E; [exact E|].
  cbn. now rewrite H.
Qed.

Lemma synthesize_calls (wantWav : bool) (text : string) (voice model : Value)
    (r : Reply) (w : World) :
  calls (snd (synthesize wantWav text voice model r w)) = calls w \/
  calls (snd (synthesize wantWav text voice model r w)) =
    calls w ++ [{| g_model := model; g_voice := voice; g_text := text |}].
Proof.
  rewrite synthesize_unfold.
  destruct (key_of _ _ _ _); [|now left].
  destruct (fresh _ _ _); [now left|]. cbv zeta. right.
  destruct (outcome r) as [m|[base64|]]; try reflexivity.
  destruct (is_empty base64); [reflexivity|].
  destruct (shaped _ _); [|reflexivity]. now destruct wantWav.
Qed.

(** X11.  What reaches the backend.  Each of /tts, /tts-url and
    /vapi-tts issues at most one call per request, and a call it issues
    never carries a blank text nor a missing or empty voice or model:
    the environment's defaults, themselves never empty, stand in.
    /vapi-tts always sends the default model and voice, whatever the
    request says. *)
Theorem backend_requests_are_well_formed (req : Request) (io : IO) (w : World) :
  let sound (w' : World) :=
    calls w' = calls w \/
    exists g, calls w' = calls w ++ [g] /\
              truthy (g_model g) = true /\ truthy (g_voice g) = true /\
              is_empty (trim (g_text g)) = false in
  sound (snd (tts req io w)) /\
  sound (snd (tts_url req io w)) /\
  (calls (snd (vapi_tts req io w)) = calls w \/
   exists t, calls (snd (vapi_tts req io w)) =
               calls w ++ [{| g_model := Str DEFAULT_MODEL;
                              g_voice := Str DEFAULT_VOICE; g_text := t |}] /\
             is_empty (trim t) = false).
Proof.
  intros sound. subst sound. cbv beta.
  assert (Hm : forall v, truthy (or_else v (Str DEFAULT_MODEL)) = true)
    by (intros v; now apply or_else_default_truthy, env_or_not_empty).
  assert (Hv : forall v, truthy (or_else v (Str DEFAULT_VOICE)) = true)
    by (intros v; now apply or_else_default_truthy, env_or_not_empty).
  repeat match goal with |- _ /\ _ => split end.
  - unfold tts. destruct (ToString _) as [t|]; [|now left].
    destruct (is_empty (trim t)) eqn:Hnb; [now left|].
    match goal with |- context [synthesizeToWav ?t ?v ?m ?r ?w] =>
      pose proof (synthesize_calls true t v m r w) as Hc;
      cbn [synthesize] in Hc;
      destruct (synthesizeToWav t v m r w) as [[wavBuf|err] w'] eqn:Hs
    end; cbn [snd] in *.
    + destruct (strict_eq_str _ _); cbn [snd];
        (destruct Hc as [Hc|Hc]; [now left|right; eexists; split; [exact Hc|]; cbn; auto]).
    + destruct Hc as [Hc|Hc]; [now left|right; eexists; split; [exact Hc|]; cbn; auto].
  - unfold tts_url. destruct (ToString _) as [t|]; [|now left].
    destruct (is_empty (trim t)) eqn:Hnb; [now left|].
    match goal with |- context [synthesizeToWav ?t ?v ?m ?r ?w] =>
      pose proof (synthesize_calls true t v m r w) as Hc;
      cbn [synthesize] in Hc;
      destruct (synthesizeToWav t v m r w) as [[wavBuf|err] w'] eqn:Hs
    end; cbn [snd] in *.
    + unfold writeFileSync. destruct (write_error io); cbn [snd calls set_files];
        (destruct Hc as [Hc|Hc]; [now left|right; eexists; split; [exact Hc|]; cbn; auto]).
    + destruct Hc as [Hc|Hc]; [now left|right; eexists; split; [exact Hc|]; cbn; auto].
  - unfold vapi_tts. destruct (secret_mismatch _ _); [now left|].
    destruct (_ || _); [now left|].
    destruct (ToString _) as [t|]; [|now left].
    destruct (ToNumber _) as [n|]; [|now left].
    destruct (is_empty (trim t)) eqn:Hnb; [now left|].
    destruct (differs_from n 24000); [now left|].
    match goal with |- context [synthesizeToPcm ?t ?v ?m ?r ?w] =>
      pose proof (synthesize_calls false t v m r w) as Hc;
      cbn [synthesize] in Hc;
      destruct (synthesizeToPcm t v m r w) as [[pcm|err] w'] eqn:Hs
    end; cbn [snd] in *;
      (destruct Hc as [Hc|Hc]; [now left|right; eexists; split; [exact Hc|exact Hnb]]).
Qed.

(** ** The webhook *)

(** X12.  A numeric [message.sampleRate] is accepted exactly when it is
    24000 or 0: zero is falsy, so [|| 24000] replaces it.  Every other
    number is answered 400 "Only 24000 Hz supported by this TTS
    server". *)
Theorem vapi_tts_numeric_sample_rate (req : Request) (io : IO) (w : World)
    (message : Value) (s : string) (q : Q) :
  secret_mismatch (env_VAPI_TTS_SECRET env) (x_vapi_signature req) = false ->
  get (or_else (body req) (Obj [])) "message" = message ->
  get message "type" = Str "voice-request" ->
  get message "text" = Str s ->
  is_empty (trim s) = false ->
  get message "sampleRate" = Number q ->
  (status (fst (vapi_tts req io w)) = 400 <-> ~ (q == 0 \/ q == 24000)%Q) /\
  (~ (q == 0 \/ q == 24000)%Q ->
   vapi_tts req io w =
     (json 400 (Obj [("error", Str "Only 24000 Hz supported by this TTS server")]), w)).
Proof.
  intros Hauth Hmsg Htype Htext Hnb Hrate.
  assert (Htruthy : truthy message = true).
  { destruct message; cbn in Htype; try discriminate. reflexivity. }
  unfold vapi_tts.
  rewrite Hauth, Hmsg, Htruthy, Htype, Htext, text_of_Str, Hrate. cbn [negb orb strict_eq_str].
  change (String.eqb "voice-request" "voice-request") with true. cbn [negb].
  unfold or_else. cbn [truthy].
  destruct (Qeq_bool q 0) eqn:E0; cbn [negb ToNumber].
  - apply Qeq_bool_iff in E0. rewrite Hnb.
    change (differs_from (Fin 24000) 24000) with false. cbv iota.
    split; [|tauto]. split; [|tauto].
    destruct (synthesizeToPcm _ _ _ _ _) as [[pcm|err] w']; cbn; discriminate.
  - rewrite Hnb. cbn [differs_from].
    assert (H0 : ~ (q == 0)%Q) by (intros H; apply Qeq_bool_iff in H; congruence).
    destruct (Qeq_bool q 24000) eqn:E1; cbn [negb].
    + apply Qeq_bool_iff in E1. split; [|tauto]. split; [|tauto].
      destruct (synthesizeToPcm _ _ _ _ _) as [[pcm|err] w']; cbn; discriminate.
    + assert (H1 : ~ (q == 24000)%Q) by (intros H; apply Qeq_bool_iff in H; congruence).
      split; [|reflexivity]. cbn. split; [tauto|reflexivity].
Qed.

(** X13.  /vapi-tts answers 401 exactly when a non-empty secret is
    configured and the x-vapi-signature header is absent or different;
    a request that carries the configured secret is never answered
    401. *)
Theorem vapi_tts_unauthorized_iff (req : Request) (io : IO) (w : World) :
  status (fst (vapi_tts req io w)) = 401 <->
  exists s, env_VAPI_TTS_SECRET env = Some s /\ s <> EmptyString /\
            x_vapi_signature req <> Some s.
Proof.
  assert (Hm : secret_mismatch (env_VAPI_TTS_SECRET env) (x_vapi_signature req) = true <->
               exists s, env_VAPI_TTS_SECRET env = Some s /\ s <> EmptyString /\
                         x_vapi_signature req <> Some s).
  { unfold secret_mismatch. destruct (env_VAPI_TTS_SECRET env) as [s|].
    - destruct s as [|c s]; cbn [is_empty].
      + split; [discriminate|]. intros (s' & [= <-] & H & _). congruence.
      + destruct (x_vapi_signature req) as [t|].
        * destruct (String.eqb_spec t (String c s)) as [->|Hne]; cbn [negb].
          -- split; [discriminate|]. intros (s' & [= <-] & _ & H). congruence.
          -- split; [|reflexivity]. intros _. exists (String c s).
             repeat split; congruence.
        * split; [|reflexivity]. intros _. exists (String c s). repeat split; congruence.
    - split; [discriminate|]. intros (s' & [=] & _). }
  rewrite <- Hm. unfold vapi_tts.
  destruct (secret_mismatch _ _); [now split|].
  split; [|discriminate]. split_cases; cbn; discriminate.
Qed.

(** ** The batch: status and backend calls *)

(** X14.  /batch-url never answers 500: it answers 200 when [items] is a
    non-empty array, whatever happens to the items, and otherwise 400
    with its usage message, having done nothing. *)
Theorem batch_url_status (req : Request) (ios : nat -> IO) (w : World) :
  (exists item rest,
     get (or_else (body req) (Obj [])) "items" = Arr (item :: rest) /\
     status (fst (batch_url req ios w)) = 200) \/
  ((forall item rest, get (or_else (body req) (Obj [])) "items" <> Arr (item :: rest)) /\
   batch_url req ios w =
     (json 400 (Obj [("error", Str "Provide items: an array of { text, voice?, model? }")]),
      w)).
Proof.
  unfold batch_url.
  destruct (get (or_else (body req) (Obj [])) "items") as [| |b|n|s|[|item rest]|props];
    try (right; split; [discriminate|reflexivity]).
  left. exists item, rest. split; [reflexivity|].
  now destruct (batch_results req ios (item :: rest) w).
Qed.

Lemma item_start_calls (item : Value) (w : World) :
  calls (snd (item_start item w)) = calls w ++ item_request item w.
Proof.
  unfold item_request, item_start, synthesizeToWav_start.
  destruct (ToString _) as [t|]; cbn [fst snd]; [|now rewrite app_nil_r].
  destruct (is_empty (trim t)); cbn [fst snd]; [now rewrite app_nil_r|].
  destruct (wav_key _ _ _) as [key|]; cbn [fst snd]; [|now rewrite app_nil_r].
  destruct (fresh _ _ _); cbn [fst snd]; [now rewrite app_nil_r|reflexivity].
Qed.

Lemma item_request_state (item : Value) (w w' : World) :
  clock w = clock w' -> audioCache w = audioCache w' ->
  item_request item w = item_request item w'.
Proof. intros Hc Ha. unfold item_request. now rewrite (item_start_state item w w'). Qed.

Lemma start_all_calls (items : list Value) (w : World) :
  calls (snd (start_all items w)) = calls w ++ concat (map (fun it => item_request it w) items).
Proof.
  revert w. induction items as [|item items IH]; intros w; cbn [start_all map concat].
  - now rewrite app_nil_r.
  - pose proof (item_start_calls item w) as H1.
    pose proof (item_start_frame item w) as [Hc Ha].
    destruct (item_start item w) as [st w1]. cbn [snd] in *.
    specialize (IH w1). destruct (start_all items w1) as [sts w2]. cbn [snd] in *.
    rewrite IH, H1, <- app_assoc. do 2 f_equal.
    f_equal. apply map_ext. intros it. now apply item_request_state.
Qed.

Lemma item_settle_calls (req : Request) (st : ItemState) (io : IO) (w : World) :
  calls (snd (item_settle req st io w)) = calls w.
Proof.
  destruct st as [result|t m v wavBuf|t m v key now]; cbn [item_settle].
  - reflexivity.
  - unfold item_finish, writeFileSync. now destruct (write_error io).
  - unfold synthesizeToWav_resume, item_finish, writeFileSync.
    destruct (outcome (reply io)) as [msg|[base64|]]; try reflexivity.
    destruct (is_empty base64); [reflexivity|].
    destruct (pcm16ToWav _ _ _ _); [|reflexivity].
    now destruct (write_error io).
Qed.

Lemma settle_all_calls (req : Request) (ios : nat -> IO) (sts : list ItemState)
    (order : list nat) (values : list Value) (w : World) :
  calls (snd (settle_all req ios sts order values w)) = calls w.
Proof.
  revert values w. induction order as [|j order IH]; intros values w; [reflexivity|].
  cbn [settle_all]. destruct (sts !! j) as [st|]; [|apply IH].
  pose proof (item_settle_calls req st (ios j) w) as H.
  destruct (item_settle req st (ios j) w) as [v w1]. now rewrite IH.
Qed.

(** X15.  The backend calls of a batch: one for each item that passes
    validation and misses the cache the request found, in input order,
    and nothing else.  Equal items are not merged: each of them that
    misses sends its own call. *)
Theorem batch_calls_in_input_order (req : Request) (ios : nat -> IO)
    (items : list Value) (w : World) :
  calls (snd (batch_results req ios items w)) =
    calls w ++ concat (map (fun item => item_request item w) items) /\
  (length (calls (snd (batch_results req ios items w))) <=
     length (calls w) + length items)%nat.
Proof.
  assert (H : calls (snd (batch_results req ios items w)) =
              calls w ++ concat (map (fun item => item_request item w) items)).
  { unfold batch_results. pose proof (start_all_calls items w) as Hs.
    destruct (start_all items w) as [sts w1]. cbn [snd] in Hs.
    now rewrite settle_all_calls. }
  split; [exact H|]. rewrite H, length_app.
  apply Nat.add_le_mono_l. clear H.
  induction items as [|item items IH]; cbn [map concat length]; [lia|].
  rewrite length_app. unfold item_request at 1.
  destruct (fst (item_start item w)); cbn [length]; lia.
Qed.

(** ** Invariants of the running process *)

Lemma keeps_refl (w : World) : keeps w w.
Proof. repeat split; auto. exists []. now rewrite app_nil_r. Qed.

Lemma keeps_trans (w1 w2 w3 : World) : keeps w1 w2 -> keeps w2 w3 -> keeps w1 w3.
Proof.
  intros (A1 & P1 & F1 & l1 & C1) (A2 & P2 & F2 & l2 & C2).
  repeat split; auto. exists (l1 ++ l2). now rewrite C2, C1, app_assoc.
Qed.

(** The gateways only add: at most one entry, well formed, under the
    kind's own prefix. *)
Lemma synthesize_keeps (wantWav : bool) (text : string) (voice model : Value)
    (r : Reply) (w : World) :
  keeps w (snd (synthesize wantWav text voice model r w)) /\
  (caches_well_formed w ->
   caches_well_formed (snd (synthesize wantWav text voice model r w))).
Proof.
  rewrite synthesize_unfold.
  destruct (key_of wantWav text voice model) as [key|] eqn:Hk;
    [|split; [apply keeps_refl|auto]].
  destruct (fresh _ _ _); [split; [apply keeps_refl|auto]|]. cbv zeta.
  assert (Hsent : forall t g, keeps w (set_clock t (send g w)) /\
            (caches_well_formed w -> caches_well_formed (set_clock t (send g w)))).
  { intros t g. split; [|auto]. repeat split; auto. now exists [g]. }
  destruct (outcome r) as [m|[base64|]]; cbn [snd]; try apply Hsent.
  destruct (is_empty base64); cbn [snd]; [apply Hsent|].
  destruct (shaped wantWav (from_base64 rt base64)) as [buf|] eqn:Hs; cbn [snd];
    [|apply Hsent].
  apply key_of_prefix in Hk as (k & _ & ->).
  destruct wantWav; cbn [set_cache_of cache_of kind_prefix shaped] in *.
  - split.
    + repeat split; cbn; auto.
      * intros k0 Hk0. destruct (decide ("wav::" +:+ k = k0)) as [<-|Hne].
        -- rewrite lookup_insert_eq. eauto.
        -- now rewrite lookup_insert_ne.
      * now eexists [_].
    + intros [Ha Hp]. split; cbn; [|exact Hp].
      intros k0 e. destruct (decide ("wav::" +:+ k = k0)) as [<-|Hne].
      * rewrite lookup_insert_eq. intros [= <-]. cbn. eauto.
      * rewrite lookup_insert_ne by done. apply Ha.
  - split.
    + repeat split; cbn; auto.
      * intros k0 Hk0. destruct (decide ("pcm::" +:+ k = k0)) as [<-|Hne].
        -- rewrite lookup_insert_eq. eauto.
        -- now rewrite lookup_insert_ne.
      * now eexists [_].
    + intros [Ha Hp]. split; cbn; [exact Ha|].
      intros k0 e. destruct (decide ("pcm::" +:+ k = k0)) as [<-|Hne].
      * rewrite lookup_insert_eq. eauto.
      * rewrite lookup_insert_ne by done. apply Hp.
Qed.

Lemma writeFileSync_keeps (name : string) (data : Buffer) (err : option string) (w : World) :
  keeps w (snd (writeFileSync name data err w)) /\
  (caches_well_formed w -> caches_well_formed (snd (writeFileSync name data err w))).
Proof.
  unfold writeFileSync. destruct err; cbn [snd]; [split; [apply keeps_refl|auto]|].
  split; [|auto]. repeat split; cbn; auto.
  - intros n Hn. destruct (decide (name = n)) as [<-|Hne].
    + rewrite lookup_insert_eq. eauto.
    + now rewrite lookup_insert_ne.
  - exists []. now rewrite app_nil_r.
Qed.

Lemma tts_keeps (req : Request) (io : IO) (w : World) :
  keeps w (snd (tts req io w)) /\
  (caches_well_formed w -> caches_well_formed (snd (tts req io w))).
Proof.
  unfold tts. destruct (ToString _) as [t|]; [|split; [apply keeps_refl|auto]].
  destruct (is_empty (trim t)); [split; [apply keeps_refl|auto]|].
  match goal with |- context [synthesizeToWav ?t ?v ?m ?r ?w] =>
    pose proof (synthesize_keeps true t v m r w) as H; cbn [synthesize] in H;
    destruct (synthesizeToWav t v m r w) as [[wavBuf|err] w']
  end; cbn [snd] in *; [|exact H].
  now destruct (strict_eq_str _ _).
Qed.

Lemma tts_url_keeps (req : Request) (io : IO) (w : World) :
  keeps w (snd (tts_url req io w)) /\
  (caches_well_formed w -> caches_well_formed (snd (tts_url req io w))).
Proof.
  unfold tts_url. destruct (ToString _) as [t|]; [|split; [apply keeps_refl|auto]].
  destruct (is_empty (trim t)); [split; [apply keeps_refl|auto]|].
  match goal with |- context [synthesizeToWav ?t ?v ?m ?r ?w] =>
    pose proof (synthesize_keeps true t v m r w) as [H1 H2]; cbn [synthesize] in H1, H2;
    destruct (synthesizeToWav t v m r w) as [[wavBuf|err] w']
  end; cbn [snd] in *; [|now split].
  match goal with |- context [writeFileSync ?n ?d ?e ?w] =>
    pose proof (writeFileSync_keeps n d e w) as [H3 H4];
    destruct (writeFileSync n d e w) as [[u|err] w'']
  end; cbn [snd] in *; (split; [now apply (keeps_trans w w' w'')|auto]).
Qed.

Lemma vapi_tts_keeps (req : Request) (io : IO) (w : World) :
  keeps w (snd (vapi_tts req io w)) /\
  (caches_well_formed w -> caches_well_formed (snd (vapi_tts req io w))).
Proof.
  unfold vapi_tts. destruct (secret_mismatch _ _); [split; [apply keeps_refl|auto]|].
  destruct (_ || _); [split; [apply keeps_refl|auto]|].
  destruct (ToString _) as [t|]; [|split; [apply keeps_refl|auto]].
  destruct (ToNumber _) as [n|]; [|split; [apply keeps_refl|auto]].
  destruct (is_empty (trim t)); [split; [apply keeps_refl|auto]|].
  destruct (differs_from n 24000); [split; [apply keeps_refl|auto]|].
  match goal with |- context [synthesizeToPcm ?t ?v ?m ?r ?w] =>
    pose proof (synthesize_keeps false t v m r w) as H; cbn [synthesize] in H;
    destruct (synthesizeToPcm t v m r w) as [[pcm|err] w']
  end; cbn [snd] in *; exact H.
Qed.

Lemma sent_keeps (g : GenRequest) (w : World) :
  keeps w (send g w) /\ (caches_well_formed w -> caches_well_formed (send g w)).
Proof. split; [|auto]. repeat split; auto. now exists [g]. Qed.

Lemma item_start_keeps (item : Value) (w : World) :
  keeps w (snd (item_start item w)) /\
  (caches_well_formed w -> caches_well_formed (snd (item_start item w))) /\
  (forall t m v key now, fst (item_start item w) = Pending t m v key now ->
     exists k, key = "wav::" +:+ k).
Proof.
  unfold item_start, synthesizeToWav_start.
  destruct (ToString _) as [t|]; cbn [fst snd];
    [|split; [apply keeps_refl|split; [auto|discriminate]]].
  destruct (is_empty (trim t)); cbn [fst snd];
    [split; [apply keeps_refl|split; [auto|discriminate]]|].
  destruct (wav_key _ _ _) as [key|] eqn:Hk; cbn [fst snd];
    [|split; [apply keeps_refl|split; [auto|discriminate]]].
  destruct (fresh _ _ _); cbn [fst snd];
    [split; [apply keeps_refl|split; [auto|discriminate]]|].
  split; [apply sent_keeps|]. split; [apply sent_keeps|].
  intros t' m v key' now [= _ _ _ <- _].
  apply (key_of_prefix true) in Hk as (k & _ & ->). now exists k.
Qed.

Lemma start_all_keeps (items : list Value) (w : World) :
  keeps w (snd (start_all items w)) /\
  (caches_well_formed w -> caches_well_formed (snd (start_all items w))) /\
  (forall i t m v key now, fst (start_all items w) !! i = Some (Pending t m v key now) ->
     exists k, key = "wav::" +:+ k).
Proof.
  revert w. induction items as [|item items IH]; intros w; cbn [start_all].
  - split; [apply keeps_refl|]. split; [auto|]. intros i t m v key now Hi. done.
  - pose proof (item_start_keeps item w) as (K1 & W1 & P1).
    destruct (item_start item w) as [st w1]. cbn [fst snd] in *.
    specialize (IH w1) as (K2 & W2 & P2).
    destruct (start_all items w1) as [sts w2]. cbn [fst snd] in *.
    split; [now apply (keeps_trans w w1 w2)|]. split; [auto|].
    intros [|i] t m v key now Hi; cbn in Hi.
    + injection Hi as ->. eauto.
    + eauto.
Qed.

Lemma item_settle_keeps (req : Request) (st : ItemState) (io : IO) (w : World) :
  (forall t m v key now, st = Pending t m v key now -> exists k, key = "wav::" +:+ k) ->
  keeps w (snd (item_settle req st io w)) /\
  (caches_well_formed w -> caches_well_formed (snd (item_settle req st io w))).
Proof.
  intros Hst. destruct st as [result|t m v wavBuf|t m v key now]; cbn [item_settle].
  - split; [apply keeps_refl|auto].
  - unfold item_finish.
    match goal with |- context [writeFileSync ?n ?d ?e ?w] =>
      pose proof (writeFileSync_keeps n d e w) as H;
      destruct (writeFileSync n d e w) as [[u|err] w']
    end; exact H.
  - destruct (Hst _ _ _ _ _ eq_refl) as [k ->].
    assert (Hclock : keeps w (set_clock (now + latency (reply io)) w) /\
              (caches_well_formed w ->
               caches_well_formed (set_clock (now + latency (reply io)) w))).
    { split; [|auto]. repeat split; auto. exists []. cbn. now rewrite app_nil_r. }
    unfold synthesizeToWav_resume.
    destruct (outcome (reply io)) as [msg|[base64|]]; cbn [snd]; try exact Hclock.
    destruct (is_empty base64); cbn [snd]; [exact Hclock|].
    destruct (pcm16ToWav _ _ _ _) as [wavBuf|] eqn:Hw; cbn [snd]; [|exact Hclock].
    unfold item_finish.
    match goal with |- context [writeFileSync ?n ?d ?e ?w0] =>
      pose proof (writeFileSync_keeps n d e w0) as [K W];
      destruct (writeFileSync n d e w0) as [[u|err] w']
    end; cbn [snd] in *.
    all: split;
      [ eapply keeps_trans; [|exact K]; repeat split; cbn; auto;
        [ intros k0 Hk0; destruct (decide ("wav::" +:+ k = k0)) as [<-|Hne];
          [rewrite lookup_insert_eq; eauto | now rewrite lookup_insert_ne]
        | exists []; now rewrite app_nil_r ]
      | intros [Ha Hp]; apply W; split; cbn; [|exact Hp];
        intros k0 e; destruct (decide ("wav::" +:+ k = k0)) as [<-|Hne];
        [ rewrite lookup_insert_eq; intros [= <-]; cbn; eauto
        | rewrite lookup_insert_ne by done; apply Ha ] ].
Qed.

Lemma settle_all_keeps (req : Request) (ios : nat -> IO) (sts : list ItemState)
    (order : list nat) (values : list Value) (w : World) :
  (forall i t m v key now, sts !! i = Some (Pending t m v key now) ->
     exists k, key = "wav::" +:+ k) ->
  keeps w (snd (settle_all req ios sts order values w)) /\
  (caches_well_formed w ->
   caches_well_formed (snd (settle_all req ios sts order values w))).
Proof.
  intros Hsts. revert values w.
  induction order as [|j order IH]; intros values w; cbn [settle_all].
  - split; [apply keeps_refl|auto].
  - destruct (sts !! j) as [st|] eqn:Hj; [|apply IH].
    assert (Hst : forall t m v key now, st = Pending t m v key now ->
                    exists k, key = "wav::" +:+ k)
      by (intros t m v key now ->; eauto).
    pose proof (item_settle_keeps req st (ios j) w Hst) as [K W].
    destruct (item_settle req st (ios j) w) as [x w1]. cbn [snd] in *.
    specialize (IH (<[j := x]> values) w1) as [K' W'].
    split; [now apply (keeps_trans w w1 _)|auto].
Qed.

Lemma batch_url_keeps (req : Request) (ios : nat -> IO) (w : World) :
  keeps w (snd (batch_url req ios w)) /\
  (caches_well_formed w -> caches_well_formed (snd (batch_url req ios w))).
Proof.
  unfold batch_url.
  destruct (get _ "items") as [| |b|n|s|[|item rest]|props];
    try (split; [apply keeps_refl|auto]).
  unfold batch_results.
  pose proof (start_all_keeps (item :: rest) w) as (K1 & W1 & P1).
  destruct (start_all (item :: rest) w) as [sts w1]. cbn [fst snd] in *.
  match goal with |- context [settle_all ?r ?i ?s ?o ?v ?w0] =>
    pose proof (settle_all_keeps r i s o v w0 P1) as [K2 W2];
    destruct (settle_all r i s o v w0) as [results w2]
  end; cbn [snd] in *.
  split; [now apply (keeps_trans w w1 w2)|auto].
Qed.

(** X16.  Nothing is ever evicted or deleted: whatever happens next, a
    clock tick or a request to any route, every cache key, every file
    name and every logged call of the world before is still there
    after. *)
Theorem step_keeps (w w' : World) : step w w' -> keeps w w'.
Proof.
  intros [t|req io|req io|req ios|req io].
  - repeat split; auto. exists []. cbn. now rewrite app_nil_r.
  - apply tts_keeps.
  - apply tts_url_keeps.
  - apply batch_url_keeps.
  - apply vapi_tts_keeps.
Qed.

Lemma step_well_formed (w w' : World) :
  step w w' -> caches_well_formed w -> caches_well_formed w'.
Proof.
  intros [t|req io|req io|req ios|req io] H.
  - exact H.
  - now apply tts_keeps.
  - now apply tts_url_keeps.
  - now apply batch_url_keeps.
  - now apply vapi_tts_keeps.
Qed.

(** X17.  In every world the process can reach, each entry of
    [audioCache] sits under a "wav::" key and holds the WAV file that
    [pcm16ToWav] makes of some PCM bytes, and each entry of [pcmCache]
    sits under a "pcm::" key. *)
Theorem reachable_caches_well_formed (w : World) : reachable w -> caches_well_formed w.
Proof.
  induction 1 as [t dir|w w' _ IH Hstep].
  - split; intros k e; cbn; now rewrite lookup_empty.
  - now apply (step_well_formed w w').
Qed.

(** X18.  Whatever /tts sends as audio from a reachable world, fresh or
    cached, is a WAV file: the 44-byte header for 24 kHz, mono, 16 bits,
    with the right sizes, followed by PCM bytes. *)
Theorem tts_sends_wav_files (req : Request) (io : IO) (w : World) (b : Buffer) :
  reachable w ->
  content (fst (tts req io w)) = Bytes b ->
  exists pcm,
    pcm16ToWav pcm 24000 1 16 = Ok b /\
    length b = (44 + length pcm)%nat /\
    skipn 44 b = pcm /\
    readUInt32LE 40 b = Some (Z.of_nat (length pcm)).
Proof.
  intros Hreach Hb.
  assert (Hr : caches_well_formed w).
  { clear Hb. induction Hreach as [t dir|w0 w' _ IH Hstep].
    - split; intros k e; cbn; now rewrite lookup_empty.
    - now apply (step_well_formed w0 w'). }
  assert (Hwav : exists pcm, pcm16ToWav pcm 24000 1 16 = Ok b).
  { unfold tts in Hb. destruct (ToString _) as [t|]; [|discriminate].
    destruct (is_empty (trim t)); [discriminate|].
    match type of Hb with context [synthesizeToWav ?t ?v ?m ?r ?w] =>
      pose proof (synthesize_keeps true t v m r w) as [_ Hwf];
      pose proof (synthesize_Ok true t v m r w) as Hok;
      cbn [synthesize] in Hwf, Hok;
      destruct (synthesizeToWav t v m r w) as [[wavBuf|err] w']
    end; cbn [fst snd content] in *; [|discriminate].
    destruct (strict_eq_str _ _); [discriminate|]. cbn in Hb. injection Hb as ->.
    destruct (Hok w' b eq_refl) as (key & e & _ & He & <- & _).
    cbn [cache_of] in He. destruct (Hwf Hr) as [Ha _].
    now destruct (Ha key e He) as [_ Hpcm]. }
  destruct Hwav as [pcm Hpcm]. exists pcm. split; [exact Hpcm|].
  rewrite pcm16ToWav_closed_form in Hpcm.
  destruct (out_of_range (inject_Z _) _) eqn:E; [discriminate|].
  rewrite out_of_range_Z in E. apply negb_false_iff, andb_true_iff in E as [E0 E].
  apply Z.leb_le in E0, E.
  cbn [orb] in Hpcm. vm_compute (out_of_range _ _) in Hpcm.
  cbn [orb] in Hpcm.
  destruct (le_bytes_4_shape (36 + Z.of_nat (length pcm))) as (a1 & a2 & a3 & a4 & E1).
  destruct (le_bytes_4_shape (Z.of_nat (length pcm))) as (g1 & g2 & g3 & g4 & E2).
  rewrite E1, E2 in Hpcm. injection Hpcm as <-. clear Hb.
  repeat match goal with |- _ /\ _ => split end.
  - reflexivity.
  - reflexivity.
  - read_field E2. f_equal. rewrite firstn_O, <- E2.
    apply (le_value_le_bytes 4). change (8 * Z.of_nat 4) with 32. lia.
Qed.

(** ** Across routes, and odd inputs *)

(** X19.  /tts and /tts-url share [audioCache]: after /tts has sent the
    audio of a request, /tts-url for the same body within the TTL makes
    no backend call and writes those very bytes to its file. *)
Theorem tts_url_reuses_tts_audio (req : Request) (io1 io2 : IO) (w : World)
    (s : string) (b : Buffer) (t2 : Z) :
  let body' := or_else (body req) (Obj []) in
  let useVoice := or_else (get body' "voice") (Str DEFAULT_VOICE) in
  let useModel := or_else (get body' "model") (Str DEFAULT_MODEL) in
  let w1 := snd (tts req io1 w) in
  get body' "text" = Str s ->
  content (fst (tts req io1 w)) = Bytes b ->
  (forall key e, wav_key s useVoice useModel = Ok key ->
                 audioCache w1 !! key = Some e -> t2 - createdAt e < CACHE_TTL_MS) ->
  write_error io2 = None ->
  status (fst (tts_url req io2 (set_clock t2 w1))) = 200 /\
  calls (snd (tts_url req io2 (set_clock t2 w1))) = calls w1 /\
  files (snd (tts_url req io2 (set_clock t2 w1))) !! (uuid io2 +:+ ".wav") = Some b.
Proof.
  intros body' useVoice useModel w1 Htext Hb Httl Hwrite.
  assert (Hnb : is_empty (trim s) = false).
  { unfold tts in Hb. fold body' in Hb. rewrite Htext, text_of_Str in Hb.
    now destruct (is_empty (trim s)). }
  assert (Hs : synthesizeToWav s useVoice useModel (reply io1) w = (Ok b, w1)).
  { unfold w1, tts in *. fold body' in Hb |- *.
    rewrite Htext, text_of_Str, Hnb in Hb |- *. fold useVoice useModel in Hb |- *.
    destruct (synthesizeToWav s useVoice useModel (reply io1) w) as [[wavBuf|err] w'];
      [|discriminate].
    destruct (strict_eq_str (get body' "return") "base64"); [discriminate|].
    cbn in Hb. now injection Hb as ->. }
  clearbody w1.
  apply (synthesize_Ok true) in Hs as (key & e & Hk & He & Hp & _).
  cbn [key_of cache_of] in *.
  assert (Hhit : synthesizeToWav s useVoice useModel (reply io2) (set_clock t2 w1) =
                 (Ok b, set_clock t2 w1)).
  { change synthesizeToWav with (synthesize true). rewrite synthesize_unfold.
    cbn [key_of cache_of]. rewrite Hk.
    assert (Hf : fresh (audioCache (set_clock t2 w1)) key (clock (set_clock t2 w1)) = Some b).
    { apply fresh_Some. exists e. cbn. eauto. }
    now rewrite Hf. }
  unfold tts_url. fold body'. rewrite Htext, text_of_Str, Hnb. fold useVoice useModel.
  rewrite Hhit. unfold writeFileSync. rewrite Hwrite. cbn.
  repeat split. apply lookup_insert_eq.
Qed.

(** X20.  A [text] that is not there or is falsy ([null], [false], [0],
    the empty string) is treated as missing by every route: 400 from
    /tts and /tts-url, the "Missing text" result from a batch item, and
    nothing is synthesized.  An item that is not an object at all is
    such an item. *)
Theorem falsy_text_is_missing (req : Request) (io : IO) (w : World) (item : Value) :
  (truthy (get (or_else (body req) (Obj [])) "text") = false ->
   tts req io w = (json 400 (Obj [("error", Str missing_text_string)]), w) /\
   tts_url req io w = (json 400 (Obj [("error", Str missing_text_string)]), w)) /\
  (truthy (get item "text") = false ->
   item_result req item io w = Obj [("error", Str "Missing text")] /\
   item_request item w = []).
Proof.
  assert (Hfalsy : forall v, truthy v = false ->
            ToString (or_else v (Str EmptyString)) = Ok EmptyString)
    by (intros v H; unfold or_else; now rewrite H).
  split.
  - intros H. unfold tts, tts_url. rewrite (Hfalsy _ H). now split.
  - intros H. unfold item_result, item_request, item_start. rewrite (Hfalsy _ H).
    now split.
Qed.

(** X21.  What a failed batch item reports, on a cache miss: the
    backend's message when it rejects with a non-empty one, "synthesis
    failed" when the rejection carries no message or an empty one, and
    "No audio produced by model" when the reply has no audio payload. *)
Theorem batch_item_error_message (req : Request) (item : Value) (io : IO) (w : World)
    (t : string) (m v : Value) (key : string) (now : Z) :
  fst (item_start item w) = Pending t m v key now ->
  match outcome (reply io) with
  | Rejects (Some msg) =>
      item_result req item io w =
        Obj [("error", Str (if is_empty msg then "synthesis failed" else msg))]
  | Rejects None => item_result req item io w = Obj [("error", Str "synthesis failed")]
  | Responds None => item_result req item io w = Obj [("error", Str "No audio produced by model")]
  | Responds (Some base64) =>
      is_empty base64 = true ->
      item_result req item io w = Obj [("error", Str "No audio produced by model")]
  end.
Proof.
  intros Hst. unfold item_result. rewrite Hst. cbn [item_settle].
  unfold synthesizeToWav_resume.
  destruct (outcome (reply io)) as [[msg|]|[base64|]]; cbn [fst]; try reflexivity.
  - unfold item_error, or_else. cbn [message_of truthy]. now destruct (is_empty msg).
  - intros ->. reflexivity.
Qed.
End Server.

(** * Examples and counterexamples on the concrete runtime *)

Import Demo.

Example demo_base64 : b64_decode "AAAAAA==" = zeros4 /\ b64_encode zeros4 = "AAAAAA==".
Proof. split; reflexivity. Qed.

Example demo_first_call :
  synthesizeToWav rt "Hello" (Str "Kore") (Str "m1") reply_zeros w0 = (Ok wav48, w1).
Proof. vm_compute. reflexivity. Qed.

(** The example scenario of the specification: four zero bytes of PCM
    give exactly these 48 bytes. *)
Example wav_of_four_zero_bytes :
  pcm16ToWav zeros4 24000 1 16 =
  Ok [x52; x49; x46; x46; x28; x00; x00; x00; x57; x41; x56; x45;
      x66; x6d; x74; x20; x10; x00; x00; x00; x01; x00; x01; x00;
      xc0; x5d; x00; x00; x80; xbb; x00; x00; x02; x00; x10; x00;
      x64; x61; x74; x61; x04; x00; x00; x00; x00; x00; x00; x00].
Proof. vm_compute. reflexivity. Qed.

(** The same scenario through /tts: the text "Hello", voice "Kore",
    model "m1", the backend answering base64 of four zero bytes. *)
Example tts_hello :
  content (fst (tts rt env (post hello None) io_zeros w0)) = Bytes wav48 /\
  status (fst (tts rt env (post hello None) io_zeros w0)) = 200 /\
  length wav48 = 48%nat.
Proof. repeat split; vm_compute; reflexivity. Qed.

(** The four-zero-byte PCM of the specification's scenario. *)
Lemma pcm16ToWav_canonical_witness :
  36 + Z.of_nat (length zeros4) < 2 ^ 32 /\
  exists out,
    pcm16ToWav zeros4 24000 1 16 = Ok out /\
    length out = 48%nat /\
    readUInt32LE 40 out = Some 4 /\
    skipn 44 out = zeros4.
Proof.
  assert (H : 36 + Z.of_nat (length zeros4) < 2 ^ 32) by (vm_compute; reflexivity).
  split; [exact H|].
  destruct (pcm16ToWav_canonical zeros4 H)
    as (out & H1 & H2 & _ & _ & _ & _ & _ & _ & _ & _ & _ & _ & _ & _ & H3 & H4).
  exists out. repeat split; assumption.
Defined.

(** C1 fails as stated: a PCM buffer of [2^32 - 36] bytes makes the
    RIFF size [2^32], which [writeUInt32LE] refuses; no buffer is
    returned. *)
Lemma pcm16ToWav_size_overflow :
  pcm16ToWav pcm_too_long 24000 1 16 = Throw RangeError /\
  ~ exists out, pcm16ToWav pcm_too_long 24000 1 16 = Ok out /\
                length out = (44 + length pcm_too_long)%nat.
Proof.
  assert (H : pcm16ToWav pcm_too_long 24000 1 16 = Throw RangeError).
  { unfold pcm16ToWav, writeUInt32LE. cbv zeta.
    rewrite writeUIntLE_overflow; [reflexivity|].
    unfold pcm_too_long. rewrite repeat_length, Z2Nat.id by lia.
    change (8 * Z.of_nat 4) with 32. lia. }
  split; [exact H|]. intros (out & Hout & _). rewrite H in Hout. discriminate.
Qed.

Lemma synthesizeToWav_repeat_witness :
  synthesizeToWav rt "Hello" (Str "Kore") (Str "m1") reply_zeros w0 = (Ok wav48, w1) /\
  synthesizeToWav rt "Hello" (Str "Kore") (Str "m1") reply_fails (set_clock 600999 w1) =
    (Ok wav48, set_clock 600999 w1).
Proof.
  assert (H1 : synthesizeToWav rt "Hello" (Str "Kore") (Str "m1") reply_zeros w0 =
               (Ok wav48, w1)) by (vm_compute; reflexivity).
  split; [exact H1|].
  refine (proj1 (synthesizeToWav_repeat_is_cached rt "Hello" (Str "Kore") (Str "m1")
                   reply_zeros reply_fails w0 w1 wav48 600999 H1 _)).
  intros key e Hk He. vm_compute in Hk. injection Hk as <-.
  vm_compute in He. injection He as <-. vm_compute. reflexivity.
Defined.

Lemma fingerprint_uses_untrimmed_text_witness :
  wav_key rt "Hello" (Str "Kore") (Str "m1") = Ok "wav::m1::Kore::Hello" /\
  wav_key rt " Hello " (Str "Kore") (Str "m1") = Ok "wav::m1::Kore:: Hello " /\
  ("wav::m1::Kore::Hello" = "wav::m1::Kore:: Hello " <-> "Hello" = " Hello ").
Proof.
  split; [reflexivity|]. split; [reflexivity|].
  refine (proj1 (fingerprint_uses_untrimmed_text rt env "Hello" " Hello "
                   (Str "Kore") (Str "m1") "wav::m1::Kore::Hello" "wav::m1::Kore:: Hello "
                   (post hello None) io_zeros w0 _ _ _ _)); reflexivity.
Defined.

(** C3 fails as stated: "Hello" and " Hello " are equal after trimming,
    yet their fingerprints differ, and the second /tts request, made one
    second after the first completed, calls the backend again. *)
Lemma trimmed_texts_get_distinct_fingerprints :
  trim "Hello" = trim " Hello " /\
  wav_key rt "Hello" (Str "Kore") (Str "m1") <>
    wav_key rt " Hello " (Str "Kore") (Str "m1") /\
  calls (snd (tts rt env (post hello None) io_zeros w0)) =
    [{| g_model := Str "m1"; g_voice := Str "Kore"; g_text := "Hello" |}] /\
  calls (snd (tts rt env (post hello_padded None) io_zeros
                (set_clock 5000 (snd (tts rt env (post hello None) io_zeros w0))))) =
    [{| g_model := Str "m1"; g_voice := Str "Kore"; g_text := "Hello" |};
     {| g_model := Str "m1"; g_voice := Str "Kore"; g_text := " Hello " |}].
Proof.
  split; [reflexivity|]. split; [vm_compute; discriminate|].
  split; vm_compute; reflexivity.
Qed.

Lemma stale_entry_is_a_miss_witness :
  audioCache (set_clock 601000 w1) !! hello_key =
    Some {| payload := wav48; createdAt := 1000 |} /\
  calls (snd (synthesize rt true "Hello" (Str "Kore") (Str "m1") reply_fails
                (set_clock 601000 w1))) =
    calls (set_clock 601000 w1) ++
    [{| g_model := Str "m1"; g_voice := Str "Kore"; g_text := "Hello" |}].
Proof.
  assert (He : audioCache (set_clock 601000 w1) !! hello_key =
               Some {| payload := wav48; createdAt := 1000 |}) by (vm_compute; reflexivity).
  split; [exact He|].
  refine (proj1 (proj2 (stale_entry_is_a_miss rt true "Hello" (Str "Kore") (Str "m1")
                          reply_fails (set_clock 601000 w1) hello_key
                          {| payload := wav48; createdAt := 1000 |} _ He _)));
    [reflexivity | vm_compute; discriminate].
Defined.

Lemma kind_isolation_witness :
  exists k e,
    makeKey rt "Hello" (Str "Kore") (Str "m1") = Ok k /\
    audioCache w1 !! ("wav::" +:+ k) = Some e /\ payload e = wav48.
Proof.
  refine (proj1 (proj2 (kind_isolation rt true "Hello" (Str "Kore") (Str "m1")
                          reply_fails (set_clock 2000 w1))) wav48 _ _);
    vm_compute; reflexivity.
Defined.

Lemma createdAt_is_call_start_witness :
  exists key,
    key_of rt true "Hello" (Str "Kore") (Str "m1") = Ok key /\
    audioCache w1 !! key = Some {| payload := wav48; createdAt := clock w0 |} /\
    clock w1 = clock w0 + latency reply_zeros.
Proof.
  destruct (createdAt_is_call_start rt true "Hello" (Str "Kore") (Str "m1")
              reply_zeros w0 w1 wav48) as (key & Hk & He & Hc & _).
  - vm_compute. reflexivity.
  - vm_compute. discriminate.
  - exists key. repeat split; assumption.
Defined.

(** C6 fails as stated: the entry is inserted when the reply arrives, at
    clock 4000, but is stamped 1000, the clock at the start of the call;
    so it is no longer served one millisecond before 4000 plus ten
    minutes. *)
Lemma createdAt_is_not_the_insertion_time :
  synthesizeToWav rt "Hello" (Str "Kore") (Str "m1") reply_zeros w0 = (Ok wav48, w1) /\
  clock w1 = 4000 /\
  audioCache w1 !! hello_key = Some {| payload := wav48; createdAt := 1000 |} /\
  (forall e, audioCache w1 !! hello_key = Some e -> createdAt e <> clock w1) /\
  fresh (audioCache w1) hello_key (4000 + 10 * 60 * 1000 - 1) = None.
Proof.
  split; [vm_compute; reflexivity|]. split; [reflexivity|].
  split; [vm_compute; reflexivity|]. split; [|vm_compute; reflexivity].
  intros e He. vm_compute in He. injection He as <-. vm_compute. discriminate.
Qed.

Lemma tts_rejects_blank_text_witness :
  tts rt env (post (Obj [("text", Str "   ")]) None) io_zeros w0 =
    (json 400 (Obj [("error", Str missing_text_string)]), w0) /\
  tts rt env (post (Obj [("voice", Str "Kore")]) None) io_zeros w0 =
    (json 400 (Obj [("error", Str missing_text_string)]), w0) /\
  tts rt env (post (Obj [("text", Str EmptyString)]) None) io_zeros w0 =
    (json 400 (Obj [("error", Str missing_text_string)]), w0).
Proof.
  split; [|split].
  - refine (proj1 (tts_rejects_blank_text rt env _ io_zeros w0 _)).
    right. exists "   ". split; reflexivity.
  - refine (proj1 (tts_rejects_blank_text rt env _ io_zeros w0 _)).
    left. reflexivity.
  - refine (proj1 (tts_rejects_blank_text rt env _ io_zeros w0 _)).
    right. exists EmptyString. split; reflexivity.
Defined.

Lemma vapi_tts_secret_check_witness :
  vapi_tts rt env_abc (post (voice_request []) (Some "xyz")) io_zeros w0 =
    (json 401 (Obj [("error", Str "Unauthorized")]), w0) /\
  status (fst (vapi_tts rt env (post (voice_request []) (Some "xyz")) io_zeros w0)) <> 401.
Proof.
  split.
  - refine (proj1 (vapi_tts_secret_check rt env_abc _ io_zeros w0) "abc" _ _ _);
      [reflexivity | discriminate | discriminate].
  - refine (proj1 (proj2 (vapi_tts_secret_check rt env _ io_zeros w0) _)).
    left. reflexivity.
Defined.

Lemma vapi_tts_sample_rate_default_witness :
  status (fst (vapi_tts rt env (post (voice_request []) None) io_zeros w0)) <> 400 /\
  status (fst (vapi_tts rt env
                 (post (voice_request [("sampleRate", Str "24000")]) None) io_zeros w0)) <> 400.
Proof.
  split.
  - refine (proj2 (vapi_tts_sample_rate_default rt env _ io_zeros w0 _ "Hello"
                     _ eq_refl _ _ _ _)); try reflexivity. left. reflexivity.
  - refine (proj2 (vapi_tts_sample_rate_default rt env _ io_zeros w0 _ "Hello"
                     _ eq_refl _ _ _ _)); try reflexivity. right. reflexivity.
Defined.

(** The batch of the specification: three items, the second one failing
    upstream. *)
Lemma batch_url_results_witness :
  exists results,
    fst (batch_url rt env batch3 batch3_ios w0) = json 200 (Obj [("results", Arr results)]) /\
    length results = 3%nat /\
    keys <$> results !! 0%nat = Some ["text"; "url"; "model"; "voice"; "sampleRate"; "channels"] /\
    results !! 1%nat = Some (Obj [("error", Str "quota exceeded")]) /\
    keys <$> results !! 2%nat = Some ["text"; "url"; "model"; "voice"; "sampleRate"; "channels"].
Proof.
  destruct (batch_url_results rt env batch3 batch3_ios w0 hello [hello_padded; hello] eq_refl)
    as (results & H1 & H2 & H3 & _).
  exists results. split; [exact H1|]. split; [exact H2|].
  rewrite (H3 0%nat hello eq_refl), (H3 1%nat hello_padded eq_refl), (H3 2%nat hello eq_refl).
  repeat split; vm_compute; reflexivity.
Defined.

(** C8 fails as stated: a successful batch result carries a [text]
    field that the single-item answer of /tts-url does not have, so it
    has neither the single-item success shape nor the error-only one. *)
Lemma batch_success_is_not_the_single_item_shape :
  fst (batch_url rt env batch1 (fun _ => io_zeros) w0) =
    json 200 (Obj [("results", Arr [batch1_result])]) /\
  fst (tts_url rt env (post hello None) io_zeros w0) = json 200 single_result /\
  keys batch1_result = ["text"; "url"; "model"; "voice"; "sampleRate"; "channels"] /\
  keys single_result = ["url"; "sampleRate"; "channels"; "model"; "voice"] /\
  ~ keys batch1_result ≡ₚ keys single_result /\
  keys batch1_result <> ["error"].
Proof.
  split; [vm_compute; reflexivity|]. split; [vm_compute; reflexivity|].
  split; [reflexivity|]. split; [reflexivity|]. split; [|discriminate].
  intros H. apply Permutation_length in H. discriminate.
Qed.

(** * Examples for the further properties *)

Lemma pcm16ToWav_keeps_pcm_witness :
  pcm16ToWav zeros4 44100 2 16 = Ok (wav_44100_stereo zeros4) /\
  length (wav_44100_stereo zeros4) = 48%nat /\
  skipn 44 (wav_44100_stereo zeros4) = zeros4.
Proof.
  assert (H : pcm16ToWav zeros4 44100 2 16 = Ok (wav_44100_stereo zeros4))
    by (vm_compute; reflexivity).
  split; [exact H|].
  destruct (pcm16ToWav_keeps_pcm zeros4 44100 2 16 _ H) as (H1 & H2 & _).
  split; assumption.
Defined.



Lemma failed_synthesis_caches_nothing_witness :
  synthesizeToWav rt "Hello" (Str "Kore") (Str "m1") reply_fails w0 =
    (Throw (Rejected (Some "quota exceeded")), w_failed) /\
  audioCache w_failed = audioCache w0 /\ pcmCache w_failed = pcmCache w0.
Proof.
  assert (H : synthesize rt true "Hello" (Str "Kore") (Str "m1") reply_fails w0 =
              (Throw (Rejected (Some "quota exceeded")), w_failed))
    by (vm_compute; reflexivity).
  split; [exact H|].
  destruct (failed_synthesis_caches_nothing rt true _ _ _ _ _ _ _ H) as (H1 & H2 & _).
  split; assumption.
Defined.

Lemma wav_gateway_wraps_pcm_gateway_witness :
  fst (synthesizeToWav rt "Hello" (Str "Kore") (Str "m1") reply_zeros w0) =
  (pcm <- fst (synthesizeToPcm rt "Hello" (Str "Kore") (Str "m1") reply_zeros w0) ;;
   pcm16ToWav pcm 24000 1 16).
Proof.
  apply (wav_gateway_wraps_pcm_gateway rt "Hello" (Str "Kore") (Str "m1") reply_zeros w0);
    intros key _; reflexivity.
Defined.

Lemma delimiter_collision_shares_entry_witness :
  synthesizeToWav rt "Hello" (Str "x::Kore") (Str "m1") reply_fails
    (set_clock 5000 w_collision) = (Ok wav48, set_clock 5000 w_collision).
Proof.
  refine (proj2 (delimiter_collision_shares_entry rt "m1" "x" "Kore" "Hello"
                   reply_zeros reply_fails w0 w_collision wav48 5000 _ _)).
  - vm_compute. reflexivity.
  - intros key e Hk He. vm_compute in Hk. injection Hk as <-.
    vm_compute in He. injection He as <-. vm_compute. reflexivity.
Defined.

Lemma client_errors_change_nothing_witness :
  snd (tts rt env (post null_text None) io_zeros w0) = w0 /\
  snd (vapi_tts rt env_abc (post (voice_request []) (Some "xyz")) io_zeros w0) = w0.
Proof.
  split.
  - apply (proj1 (client_errors_change_nothing rt env (post null_text None) io_zeros
                    (fun _ => io_zeros) w0)). reflexivity.
  - apply (proj2 (proj2 (proj2 (client_errors_change_nothing rt env_abc
                    (post (voice_request []) (Some "xyz")) io_zeros (fun _ => io_zeros) w0)))).
    right. reflexivity.
Defined.

Lemma text_is_rejected_iff_blank_witness :
  (status (fst (tts rt env (post hello None) io_zeros w0)) = 400 <->
   whitespace_only "Hello" = true) /\
  (status (fst (tts_url rt env (post hello None) io_zeros w0)) = 400 <->
   whitespace_only "Hello" = true).
Proof.
  apply (text_is_rejected_iff_blank rt env (post hello None) io_zeros w0 "Hello").
  reflexivity.
Defined.

Lemma upstream_failure_is_a_500_witness :
  tts rt env (post hello None) io_fails w0 =
    (json 500 (Obj [("error", Str "TTS failed"); ("detail", Str "quota exceeded")]),
     w_failed).
Proof.
  refine (proj1 (upstream_failure_is_a_500 rt env (post hello None) io_fails w0
                   "Hello" hello_key _ _ _ _ _)); try reflexivity.
  intros base64 H. discriminate H.
Defined.


Lemma backend_requests_are_well_formed_witness :
  calls (snd (vapi_tts rt env (post (voice_request [("voice", Str "Puck")]) None)
                io_zeros w0)) =
  calls w0 ++ [{| g_model := Str "gemini-2.5-flash-preview-tts"; g_voice := Str "Kore";
                  g_text := "Hello" |}].
Proof.
  destruct (proj2 (proj2 (backend_requests_are_well_formed rt env
              (post (voice_request [("voice", Str "Puck")]) None) io_zeros w0)))
    as [H|(t & H & _)].
  - vm_compute in H. discriminate H.
  - vm_compute in H. injection H as <-. reflexivity.
Defined.

Lemma vapi_tts_numeric_sample_rate_witness :
  vapi_tts rt env (post (voice_request [("sampleRate", Number 16000)]) None) io_zeros w0 =
    (json 400 (Obj [("error", Str "Only 24000 Hz supported by this TTS server")]), w0) /\
  status (fst (vapi_tts rt env (post (voice_request [("sampleRate", Number 0)]) None)
                 io_zeros w0)) <> 400.
Proof.
  split.
  - refine (proj2 (vapi_tts_numeric_sample_rate rt env _ io_zeros w0 _ "Hello" 16000
                     _ eq_refl _ _ _ _) _); try reflexivity.
    intros [H|H]; vm_compute in H; discriminate H.
  - intros H400.
    refine (proj1 (proj1 (vapi_tts_numeric_sample_rate rt env _ io_zeros w0 _ "Hello" 0
                     _ eq_refl _ _ _ _)) H400 _); try reflexivity.
    left. reflexivity.
Defined.

Lemma vapi_tts_unauthorized_iff_witness :
  status (fst (vapi_tts rt env_abc (post (voice_request []) (Some "abc")) io_zeros w0)) <> 401.
Proof.
  intros H.
  apply (proj1 (vapi_tts_unauthorized_iff rt env_abc _ io_zeros w0)) in H
    as (s & Hs & _ & Hne).
  injection Hs as <-. now apply Hne.
Defined.

Lemma batch_url_status_witness :
  status (fst (batch_url rt env batch3 batch3_ios w0)) = 200.
Proof.
  destruct (batch_url_status rt env batch3 batch3_ios w0)
    as [(item & rest & _ & H)|[H _]].
  - exact H.
  - exfalso. exact (H _ _ eq_refl).
Defined.

Lemma batch_calls_in_input_order_witness :
  calls (snd (batch_results rt env batch1 (fun _ => io_zeros) [hello; hello] w0)) =
  [{| g_model := Str "m1"; g_voice := Str "Kore"; g_text := "Hello" |};
   {| g_model := Str "m1"; g_voice := Str "Kore"; g_text := "Hello" |}].
Proof.
  rewrite (proj1 (batch_calls_in_input_order rt env batch1 (fun _ => io_zeros)
                    [hello; hello] w0)).
  reflexivity.
Defined.

Lemma step_keeps_witness : keeps w0 (snd (tts rt env (post hello None) io_zeros w0)).
Proof. apply (step_keeps rt env), step_tts. Defined.

Lemma reachable_caches_well_formed_witness :
  reachable rt env (snd (tts rt env (post hello None) io_zeros w0)) /\
  caches_well_formed (snd (tts rt env (post hello None) io_zeros w0)).
Proof.
  assert (H : reachable rt env (snd (tts rt env (post hello None) io_zeros w0))).
  { apply (reachable_step rt env w0); [apply (reachable_start rt env 1000 ∅)|apply step_tts]. }
  split; [exact H|]. apply (reachable_caches_well_formed rt env _ H).
Defined.

Lemma tts_sends_wav_files_witness :
  exists pcm, pcm16ToWav pcm 24000 1 16 = Ok wav48 /\ length wav48 = (44 + length pcm)%nat.
Proof.
  destruct (tts_sends_wav_files rt env (post hello None) io_fails (set_clock 2000 w1) wav48)
    as (pcm & H1 & H2 & _).
  - apply (reachable_step rt env w1); [|apply step_clock].
    change w1 with (snd (tts rt env (post hello None) io_zeros w0)).
    apply (reachable_step rt env w0); [apply (reachable_start rt env 1000 ∅)|apply step_tts].
  - vm_compute. reflexivity.
  - exists pcm. split; assumption.
Defined.

Lemma tts_url_reuses_tts_audio_witness :
  calls (snd (tts_url rt env (post hello None) io_fails
                (set_clock 5000 (snd (tts rt env (post hello None) io_zeros w0))))) =
    calls (snd (tts rt env (post hello None) io_zeros w0)) /\
  files (snd (tts_url rt env (post hello None) io_fails
                (set_clock 5000 (snd (tts rt env (post hello None) io_zeros w0)))))
    !! "id-2.wav" = Some wav48.
Proof.
  assert (H1 : content (fst (tts rt env (post hello None) io_zeros w0)) = Bytes wav48)
    by (vm_compute; reflexivity).
  assert (H2 : forall key e,
            wav_key rt "Hello" (Str "Kore") (Str "m1") = Ok key ->
            audioCache (snd (tts rt env (post hello None) io_zeros w0)) !! key = Some e ->
            5000 - createdAt e < CACHE_TTL_MS).
  { intros key e Hk He. vm_compute in Hk. injection Hk as <-.
    vm_compute in He. injection He as <-. vm_compute. reflexivity. }
  exact (proj2 (tts_url_reuses_tts_audio rt env (post hello None) io_zeros io_fails w0
                  "Hello" wav48 5000 eq_refl H1 H2 eq_refl)).
Defined.

Lemma falsy_text_is_missing_witness :
  tts rt env (post null_text None) io_zeros w0 =
    (json 400 (Obj [("error", Str missing_text_string)]), w0) /\
  item_result rt env batch1 (Str "just a string") io_zeros w0 =
    Obj [("error", Str "Missing text")].
Proof.
  split.
  - refine (proj1 (proj1 (falsy_text_is_missing rt env (post null_text None) io_zeros w0
                            Null) _)). reflexivity.
  - refine (proj1 (proj2 (falsy_text_is_missing rt env batch1 io_zeros w0
                            (Str "just a string")) _)). reflexivity.
Defined.

Lemma batch_item_error_message_witness :
  item_result rt env batch1 hello io_fails w0 = Obj [("error", Str "quota exceeded")].
Proof.
  apply (batch_item_error_message rt env batch1 hello io_fails w0
           "Hello" (Str "m1") (Str "Kore") hello_key 1000).
  reflexivity.
Defined.
